(** * Verification of cmd/frontend/internal/httpapi/internal.go

    A shallow embedding of the Gitolite sync handler
    ([serveGitoliteUpdateReposDeprecated]), of the git smart-HTTP bridge
    ([serveGitInfoRefs], [serveGitUploadPack]) and of the pkt-line encoder
    ([packetWrite]), with the properties stated about them. *)

From Stdlib Require Import ZArith List String Ascii Bool Lia.
Import ListNotations.

Local Open Scope string_scope.

(** ** Go strings

    A Go [string] and a [[]byte] are both sequences of bytes; they are
    modelled as [string] (a list of 8-bit [ascii]), so that [[]byte(s)] is the
    identity and [len] is [String.length]. *)

Module GoString.

(** [strings.Repeat(s, count)] for a non-negative count. *)
Fixpoint Repeat (s : string) (count : nat) : string :=
  match count with
  | O => ""
  | S n => s ++ Repeat s n
  end.

(** Every byte of the string satisfies [p]. *)
Fixpoint all (p : ascii -> bool) (s : string) : bool :=
  match s with
  | EmptyString => true
  | String c r => p c && all p r
  end.

(** The line feed, written ["\n"] in Go. *)
Definition LF : string := String (ascii_of_nat 10) "".

End GoString.

(** ** strconv.FormatInt

    The Go standard library is not part of the repository; [FormatInt]
    follows its documented behaviour: the digits of [i] in the given base
    (2 to 36), lower-case letters for digit values of 10 and more, a leading
    minus sign for a negative [i], no other padding. *)

Module strconv.

Definition digits : string := "0123456789abcdefghijklmnopqrstuvwxyz".

Definition digit (d : Z) : ascii :=
  match String.get (Z.to_nat d) digits with
  | Some c => c
  | None => "0"%char
  end.

(** The digit loop of [formatBits]: least significant digit first, written
    in front of what is already there.  A 64-bit value has at most 64
    digits, which bounds the loop. *)
Fixpoint formatBits (fuel : nat) (u base : Z) (acc : string) : string :=
  match fuel with
  | O => acc
  | S f =>
      if (base <=? u)%Z
      then formatBits f (u / base)%Z base (String (digit (u mod base)) acc)
      else String (digit u) acc
  end.

Definition FormatInt (i : Z) (base : Z) : string :=
  if (i <? 0)%Z
  then String "-"%char (formatBits 64 (- i) base "")
  else formatBits 64 i base "".

End strconv.

(** A Go [int64]: the integer wrapped into [-2^63, 2^63). *)
Definition int64 (z : Z) : Z := ((z + 2 ^ 63) mod 2 ^ 64 - 2 ^ 63)%Z.

(** [len] of a Go string, as an integer. *)
Definition len (s : string) : Z := Z.of_nat (String.length s).

(** ** The pkt-line encoder *)

Definition packetWrite (str : string) : string :=
  let s := strconv.FormatInt (int64 (len str + 4)) 16 in
  let s :=
    if negb (len s mod 4 =? 0)%Z
    then GoString.Repeat "0" (Z.to_nat (4 - len s mod 4)) ++ s
    else s in
  s ++ str.

(** The number of zeros [packetWrite] puts in front of a length of [n]
    digits. *)
Definition padding (n : nat) : nat := ((4 - n mod 4) mod 4)%nat.

(** The service header line of the ref advertisement. *)
Definition serviceLine : string := "# service=git-upload-pack" ++ GoString.LF.

(** A payload one byte longer than the largest the specification admits. *)
Definition longPayload : string := GoString.Repeat "x" (Z.to_nat 65517).

(** Reading a length prefix back: plain hexadecimal, lower-case digits. *)
Definition hexval (c : ascii) : option Z :=
  let n := Z.of_nat (nat_of_ascii c) in
  if ((48 <=? n) && (n <=? 57))%Z then Some (n - 48)%Z
  else if ((97 <=? n) && (n <=? 102))%Z then Some (n - 87)%Z
  else None.

Definition isLowerHex (c : ascii) : bool :=
  match hexval c with Some _ => true | None => false end.

Fixpoint parseHexFrom (v : Z) (s : string) : option Z :=
  match s with
  | EmptyString => Some v
  | String c r =>
      match hexval c with
      | Some d => parseHexFrom (16 * v + d) r
      | None => None
      end
  end.

Definition parseHex (s : string) : option Z := parseHexFrom 0 s.

(** The encoder as the specification words it, for comparison with
    [packetWrite]: a payload of up to 65516 bytes is framed with a
    4-character prefix, a longer one is rejected ([None], the framing
    error). *)
Definition encodeLine_spec (payload : string) : option string :=
  if (len payload <=? 65516)%Z
  then
    let h := strconv.FormatInt (len payload + 4) 16 in
    Some (GoString.Repeat "0" (4 - String.length h) ++ h ++ payload)
  else None.

(** ** Data of the handlers

    The types come from packages outside this file ([api], [types],
    [schema], [conf]); only the fields the handlers read are kept. *)

Definition RepoURI := string.

(** A Go [error], by its message. *)
Definition error := string.

Inductive result (A : Type) : Type :=
| Ok (a : A)
| Err (e : error).
Arguments Ok {A} a.
Arguments Err {A} e.

Record Repo := mkRepo {
  URI : RepoURI;
  Enabled : bool
}.

Record InsertRepoOp := mkInsertRepoOp {
  opURI : RepoURI;
  opEnabled : bool
}.

Record GitoliteConnection := mkGitoliteConnection {
  Host : string;
  PhabricatorMetadataCommand : string
}.

(** What [conf.Get()] returns. *)
Record Config := mkConfig {
  Gitolite : list GitoliteConnection;
  DisableAutoGitUpdates : bool
}.

Inductive Level := Debug | Info | Warn.

(** ** Effects

    Every call that leaves the handler is recorded as an event: the calls to
    the collaborators, the log lines and the operations on the
    [http.ResponseWriter]. *)
Inductive Event :=
| EListGitolite (host : string)
| ETryInsertNewBatch (ops : list InsertRepoOp)
| EGetByURI (uri : RepoURI)
| EIsRepoCloned (uri : RepoURI)
| EEnqueueRepoUpdate (name : RepoURI)
| EPhabricatorMetadata (gconf : GitoliteConnection) (uri : RepoURI) (entry : string)
| ECommandOutput (repo : RepoURI) (args : list string)
| EUploadPack (repo : RepoURI) (request : string)
| ELog (lvl : Level) (msg : string)
| ESetHeader (key value : string)
| EWriteHeader (status : Z)
| EWrite (bytes : string).

(** The exit a loop iteration of the sync handler takes for one listed
    entry: one of its four [continue] statements, or the end of the body
    (with whether an update was enqueued on the way). *)
Inductive EntryExit :=
| LookupFailed (e : error)
| NotEnabled
| CloneCheckFailed (e : error)
| EnqueueFailed (e : error)
| Completed (enqueued : bool).

Definition failed (x : EntryExit) : bool :=
  match x with
  | LookupFailed _ | CloneCheckFailed _ | EnqueueFailed _ => true
  | NotEnabled | Completed _ => false
  end.

(** The collaborators, over a state [W] of the world outside the handler
    (repository directory, gitserver, repo-updater, site configuration).
    Each call may change that state and answer differently the next time. *)
Record Collaborators (W : Type) := mkCollaborators {
  conf_Get : W -> Config;
  ListGitolite : string -> W -> result (list string) * W;
  TryInsertNewBatch : list InsertRepoOp -> W -> option error * W;
  GetByURI : RepoURI -> W -> result Repo * W;
  IsRepoCloned : RepoURI -> W -> result bool * W;
  EnqueueRepoUpdate : RepoURI -> W -> option error * W;
  tryUpdateGitolitePhabricatorMetadataDeprecated :
    GitoliteConnection -> RepoURI -> string -> W -> W;
  (** [cmd.Output] of a gitserver command on a repository *)
  CommandOutput : RepoURI -> list string -> W -> result string * W;
  (** [UploadPack] is handed the response writer: it answers with what it
      does to it *)
  UploadPack : RepoURI -> string -> W -> list Event * W
}.
Arguments conf_Get {W} _ _.
Arguments ListGitolite {W} _ _ _.
Arguments TryInsertNewBatch {W} _ _ _.
Arguments GetByURI {W} _ _ _.
Arguments IsRepoCloned {W} _ _ _.
Arguments EnqueueRepoUpdate {W} _ _ _.
Arguments tryUpdateGitolitePhabricatorMetadataDeprecated {W} _ _ _ _ _.
Arguments CommandOutput {W} _ _ _ _.
Arguments UploadPack {W} _ _ _ _.

(** ** The handler monad: world state and the trace of events *)

Definition M (W A : Type) : Type := W -> A * W * list Event.

Definition ret {W A} (a : A) : M W A := fun w => (a, w, []).

Definition bind {W A B} (m : M W A) (k : A -> M W B) : M W B :=
  fun w =>
    let '(a, w1, t1) := m w in
    let '(b, w2, t2) := k a w1 in
    (b, w2, (t1 ++ t2)%list).

(** An event on its own: a log line or a response-writer operation. *)
Definition emit {W} (e : Event) : M W unit := fun w => (tt, w, [e]).

(** A collaborator call, recorded. *)
Definition call {W A} (e : Event) (f : W -> A * W) : M W A :=
  fun w => let '(a, w1) := f w in (a, w1, [e]).

(** Reading the world without changing it. *)
Definition ask {W A} (f : W -> A) : M W A := fun w => (f w, w, []).

Declare Scope handler_scope.
Delimit Scope handler_scope with handler.
Notation "x <- m ;; k" := (bind m (fun x => k))
  (at level 61, m at next level, right associativity) : handler_scope.
Notation "m ;;; k" := (bind m (fun _ => k))
  (at level 61, right associativity) : handler_scope.

Definition value {W A} (r : A * W * list Event) : A := fst (fst r).
Definition world {W A} (r : A * W * list Event) : W := snd (fst r).
Definition trace {W A} (r : A * W * list Event) : list Event := snd r.

(** ** The handlers *)

(** The condition of line 87, [!conf.Get().DisableAutoGitUpdates || !cloned]. *)
Definition shouldEnqueue (disableAutoGitUpdates cloned : bool) : bool :=
  negb disableAutoGitUpdates || negb cloned.

Section Handlers.

Context {W : Type} (C : Collaborators W).

Local Open Scope handler_scope.

(** The metadata step that ends the loop body (lines 97 to 99). *)
Definition metadataStep (gconf : GitoliteConnection) (uri : RepoURI)
    (entry : string) : M W unit :=
  if negb (PhabricatorMetadataCommand gconf =? "")
  then call (EPhabricatorMetadata gconf uri entry)
         (fun w => (tt, tryUpdateGitolitePhabricatorMetadataDeprecated C gconf uri entry w))
  else ret tt.

(** One iteration of the loop over the listed entries (lines 69 to 100).
    The values that only feed the log lines ([i], [len(rlist)]) are left
    out; each [continue] is an exit of the iteration. *)
Definition reconcileEntry (gconf : GitoliteConnection) (entry : string)
    : M W EntryExit :=
  let uri : RepoURI := entry in
  r <- call (EGetByURI uri) (GetByURI C uri) ;;
  match r with
  | Err e =>
      emit (ELog Warn "Could not ensure repository updated") ;;;
      ret (LookupFailed e)
  | Ok repo =>
      if negb (Enabled repo) then ret NotEnabled
      else
        c <- call (EIsRepoCloned uri) (IsRepoCloned C uri) ;;
        match c with
        | Err e =>
            emit (ELog Warn "Could not ensure repository cloned") ;;;
            ret (CloneCheckFailed e)
        | Ok cloned =>
            cfg <- ask (conf_Get C) ;;
            if shouldEnqueue (DisableAutoGitUpdates cfg) cloned
            then
              emit (ELog Info "fetching Gitolite repo") ;;;
              err <- call (EEnqueueRepoUpdate (URI repo))
                       (EnqueueRepoUpdate C (URI repo)) ;;
              match err with
              | Some e =>
                  emit (ELog Warn "Could not ensure repository cloned") ;;;
                  ret (EnqueueFailed e)
              | None =>
                  metadataStep gconf uri entry ;;;
                  ret (Completed true)
              end
            else
              metadataStep gconf uri entry ;;;
              ret (Completed false)
        end
  end.

(** Whether the calls made for [entry], starting in the world [w], all
    succeed: the lookup, the clone check of an enabled repository, and the
    dispatch where line 87 asks for one. *)
Definition callsSucceed (entry : string) (w : W) : bool :=
  match GetByURI C entry w with
  | (Err _, _) => false
  | (Ok repo, w1) =>
      if negb (Enabled repo) then true
      else
        match IsRepoCloned C entry w1 with
        | (Err _, _) => false
        | (Ok cloned, w2) =>
            if shouldEnqueue (DisableAutoGitUpdates (conf_Get C w2)) cloned
            then
              match EnqueueRepoUpdate C (URI repo) w2 with
              | (Some _, _) => false
              | (None, _) => true
              end
            else true
        end
  end.

(** The loop over the listed entries, in listing order. *)
Fixpoint reconcileEntries (gconf : GitoliteConnection) (rlist : list string)
    : M W (list EntryExit) :=
  match rlist with
  | [] => ret []
  | entry :: rest =>
      x <- reconcileEntry gconf entry ;;
      xs <- reconcileEntries gconf rest ;;
      ret (x :: xs)
  end.

(** The batch of lines 60 to 63. *)
Definition insertRepoOps (rlist : list string) : list InsertRepoOp :=
  map (fun entry => mkInsertRepoOp entry true) rlist.

(** The loop over the configured hosts (lines 54 to 101); [Some err] is
    the [return err] of line 57, which leaves the handler. *)
Fixpoint syncHosts (gconfs : list GitoliteConnection) : M W (option error) :=
  match gconfs with
  | [] => ret None
  | gconf :: rest =>
      r <- call (EListGitolite (Host gconf)) (ListGitolite C (Host gconf)) ;;
      match r with
      | Err e => ret (Some e)
      | Ok rlist =>
          err <- call (ETryInsertNewBatch (insertRepoOps rlist))
                   (TryInsertNewBatch C (insertRepoOps rlist)) ;;
          match err with
          | Some _ => emit (ELog Warn "TryInsertNewBatch failed")
          | None => ret tt
          end ;;;
          reconcileEntries gconf rlist ;;;
          syncHosts rest
      end
  end.

Definition serveGitoliteUpdateReposDeprecated : M W (option error) :=
  emit (ELog Debug "serveGitoliteUpdateRepos") ;;;
  cfg <- ask (conf_Get C) ;;
  r <- syncHosts (Gitolite cfg) ;;
  match r with
  | Some e => ret (Some e)
  | None =>
      emit (EWriteHeader 204) ;;;
      emit (EWrite "OK") ;;;
      ret None
  end.

Definition advertiseArgs : list string :=
  ["git"; "upload-pack"; "--stateless-rpc"; "--advertise-refs"; "."].

(** [service] is the query parameter of the request, [uri] the
    [RepoURI] route variable. *)
Definition serveGitInfoRefs (service : string) (uri : RepoURI)
    : M W (option error) :=
  if negb (service =? "git-upload-pack")
  then ret (Some "only support service git-upload-pack")
  else
    r <- call (EGetByURI uri) (GetByURI C uri) ;;
    match r with
    | Err e => ret (Some e)
    | Ok repo =>
        if negb (Enabled repo)
        then ret (Some ("repo is not enabled: " ++ URI repo))
        else
          o <- call (ECommandOutput (URI repo) advertiseArgs)
                 (CommandOutput C (URI repo) advertiseArgs) ;;
          match o with
          | Err e => ret (Some e)
          | Ok refs =>
              emit (ESetHeader "Content-Type"
                      "application/x-git-upload-pack-advertisement") ;;;
              emit (EWriteHeader 200) ;;;
              emit (EWrite (packetWrite serviceLine)) ;;;
              emit (EWrite "0000") ;;;
              emit (EWrite refs) ;;;
              ret None
          end
    end.

(** [uri] is the [RepoURI] route variable, [request] the request handed
    to gitserver. *)
Definition serveGitUploadPack (uri : RepoURI) (request : string)
    : M W (option error) :=
  r <- call (EGetByURI uri) (GetByURI C uri) ;;
  match r with
  | Err e => ret (Some e)
  | Ok repo =>
      fun w =>
        let '(evs, w1) := UploadPack C (URI repo) request w in
        (None, w1, (EUploadPack (URI repo) request :: evs)%list)
  end.

End Handlers.

(** The trace of a pass over the listed entries, iteration by iteration:
    the events of each entry's [reconcileEntry], run in the world the
    iterations before it have left. *)
Fixpoint entryTraces {W : Type} (C : Collaborators W) (gconf : GitoliteConnection)
    (rlist : list string) (w : W) : list (list Event) :=
  match rlist with
  | [] => []
  | entry :: rest =>
      snd (reconcileEntry C gconf entry w)
        :: entryTraces C gconf rest (snd (fst (reconcileEntry C gconf entry w)))
  end.

(** ** Reading a trace *)

(** The bytes written to the response body. *)
Fixpoint body (t : list Event) : string :=
  match t with
  | [] => ""
  | EWrite b :: r => b ++ body r
  | _ :: r => body r
  end.

(** The headers as they stand when the response starts (the first
    [WriteHeader] or [Write]); the latest [Set] of a key comes first. *)
Fixpoint sentHeaders (t : list Event) (h : list (string * string))
    : list (string * string) :=
  match t with
  | [] => h
  | ESetHeader k v :: r => sentHeaders r ((k, v) :: h)
  | EWriteHeader _ :: _ => h
  | EWrite _ :: _ => h
  | _ :: r => sentHeaders r h
  end.

Fixpoint lookupHeader (k : string) (h : list (string * string)) : option string :=
  match h with
  | [] => None
  | (k', v) :: r => if k' =? k then Some v else lookupHeader k r
  end.

Definition contentType (t : list Event) : option string :=
  lookupHeader "Content-Type" (sentHeaders t []).

(** The repositories an update was requested for. *)
Fixpoint enqueues (t : list Event) : list RepoURI :=
  match t with
  | [] => []
  | EEnqueueRepoUpdate n :: r => n :: enqueues r
  | _ :: r => enqueues r
  end.

(** The names looked up in the repository directory. *)
Fixpoint lookups (t : list Event) : list RepoURI :=
  match t with
  | [] => []
  | EGetByURI u :: r => u :: lookups r
  | _ :: r => lookups r
  end.

(** The entries the metadata refresh was called for. *)
Fixpoint metadataCalls (t : list Event) : list string :=
  match t with
  | [] => []
  | EPhabricatorMetadata _ _ entry :: r => entry :: metadataCalls r
  | _ :: r => metadataCalls r
  end.

(** The hosts whose listing was requested. *)
Fixpoint listings (t : list Event) : list string :=
  match t with
  | [] => []
  | EListGitolite h :: r => h :: listings r
  | _ :: r => listings r
  end.

(** The batches submitted for registration. *)
Fixpoint registrations (t : list Event) : list (list InsertRepoOp) :=
  match t with
  | [] => []
  | ETryInsertNewBatch ops :: r => ops :: registrations r
  | _ :: r => registrations r
  end.

(** Calls to the git backend: commands run and upload-pack sessions. *)
Fixpoint backendCalls (t : list Event) : list Event :=
  match t with
  | [] => []
  | ECommandOutput repo args :: r => ECommandOutput repo args :: backendCalls r
  | EUploadPack repo req :: r => EUploadPack repo req :: backendCalls r
  | _ :: r => backendCalls r
  end.

(** ** A directory, a gitserver and a repo-updater to run the handlers on

    A small world for concrete runs.  Registration is not visible at once:
    a name that [TryInsertNewBatch] adds is first [lagging], its next lookup
    fails, and only from then on it resolves. *)

Module Sim.

Record World := mkWorld {
  conf : Config;
  hosts : list (string * list string);   (* host, what it lists *)
  directory : list Repo;
  lagging : list RepoURI;
  clones : list (RepoURI * bool);        (* answers of the clone check *)
  refused : list RepoURI;                (* updates repo-updater rejects *)
  adverts : list (RepoURI * string)      (* output of upload-pack --advertise-refs *)
}.

Fixpoint assoc {A} (k : string) (l : list (string * A)) : option A :=
  match l with
  | [] => None
  | (k', a) :: r => if k' =? k then Some a else assoc k r
  end.

Definition mem (k : string) (l : list string) : bool :=
  existsb (String.eqb k) l.

Definition findRepo (k : RepoURI) (l : list Repo) : option Repo :=
  find (fun r => URI r =? k) l.

Definition listGitolite (host : string) (w : World) : result (list string) * World :=
  match assoc host (hosts w) with
  | Some l => (Ok l, w)
  | None => (Err "gitolite host unreachable", w)
  end.

Definition known (w : World) (k : RepoURI) : bool :=
  match findRepo k (directory w) with
  | Some _ => true
  | None => mem k (lagging w)
  end.

Definition tryInsertNewBatch (ops : list InsertRepoOp) (w : World)
    : option error * World :=
  let new := filter (fun k => negb (known w k)) (map opURI ops) in
  (None,
   mkWorld (conf w) (hosts w) (directory w) (lagging w ++ new)
     (clones w) (refused w) (adverts w)).

Definition getByURI (k : RepoURI) (w : World) : result Repo * World :=
  match findRepo k (directory w) with
  | Some r => (Ok r, w)
  | None =>
      if mem k (lagging w)
      then (Err "repo not found",
            mkWorld (conf w) (hosts w) (directory w ++ [mkRepo k true])
              (filter (fun k' => negb (k' =? k)) (lagging w))
              (clones w) (refused w) (adverts w))
      else (Err "repo not found", w)
  end.

Definition isRepoCloned (k : RepoURI) (w : World) : result bool * World :=
  match assoc k (clones w) with
  | Some b => (Ok b, w)
  | None => (Err "gitserver unavailable", w)
  end.

Definition enqueueRepoUpdate (k : RepoURI) (w : World) : option error * World :=
  if mem k (refused w) then (Some "repo-updater unavailable", w) else (None, w).

Definition commandOutput (k : RepoURI) (args : list string) (w : World)
    : result string * World :=
  match assoc k (adverts w) with
  | Some out => (Ok out, w)
  | None => (Err "exit status 128", w)
  end.

Definition uploadPack (k : RepoURI) (request : string) (w : World)
    : list Event * World :=
  ([EWrite "0008NAK" ], w).

Definition collaborators : Collaborators World :=
  mkCollaborators World conf listGitolite tryInsertNewBatch getByURI
    isRepoCloned enqueueRepoUpdate (fun _ _ _ w => w) commandOutput uploadPack.

(** The scenario of three listed names: [a] and [b] are known and
    enabled, [a] is cloned and [b] is not, [c] is new; updates are not
    suppressed. *)
Definition abc : World :=
  mkWorld (mkConfig [mkGitoliteConnection "git.example.com" ""] false)
    [("git.example.com", ["a"; "b"; "c"])]
    [mkRepo "a" true; mkRepo "b" true]
    []
    [("a", true); ("b", false); ("c", false)]
    []
    [("a", "003fdeadbeef HEAD0000")].

(** Two hosts, of which the first cannot be listed. *)
Definition twoHosts : World :=
  mkWorld
    (mkConfig [mkGitoliteConnection "down.example.com" "";
               mkGitoliteConnection "git.example.com" ""] false)
    [("git.example.com", ["a"; "b"])]
    [mkRepo "a" true; mkRepo "b" true]
    []
    [("a", true); ("b", false)]
    []
    [].

(** One host with a metadata command; [b] is known but its clone check
    fails, [d] is disabled, the update for [e] is rejected. *)
Definition mixed : World :=
  mkWorld
    (mkConfig [mkGitoliteConnection "git.example.com" "arc call-conduit"] true)
    [("git.example.com", ["a"; "b"; "d"; "e"; "f"])]
    [mkRepo "a" true; mkRepo "b" true; mkRepo "d" false; mkRepo "e" true;
     mkRepo "f" true]
    []
    [("a", true); ("d", true); ("e", false); ("f", false)]
    ["e"]
    [("a", "003fdeadbeef HEAD0000")].

(** The first host lists, the second cannot be listed, a third is never
    reached. *)
Definition secondDown : World :=
  mkWorld
    (mkConfig [mkGitoliteConnection "git.example.com" "";
               mkGitoliteConnection "down.example.com" "";
               mkGitoliteConnection "git2.example.com" ""] false)
    [("git.example.com", ["a"]); ("git2.example.com", ["b"])]
    [mkRepo "a" true; mkRepo "b" true]
    []
    [("a", true); ("b", false)]
    []
    [].

Definition gitExample : GitoliteConnection :=
  mkGitoliteConnection "git.example.com" "arc call-conduit".

Definition downExample : GitoliteConnection :=
  mkGitoliteConnection "down.example.com" "".

(** [abc] once the three listed names have been submitted for
    registration: [c] is registered, and its first lookup fails. *)
Definition abcRegistered : World :=
  snd (tryInsertNewBatch
         [mkInsertRepoOp "a" true; mkInsertRepoOp "b" true; mkInsertRepoOp "c" true]
         abc).

End Sim.
(** ** Further readings of a trace *)

(** The operations on the response writer, in order. *)
Fixpoint responseOps (t : list Event) : list Event :=
  match t with
  | [] => []
  | ESetHeader k v :: r => ESetHeader k v :: responseOps r
  | EWriteHeader s :: r => EWriteHeader s :: responseOps r
  | EWrite b :: r => EWrite b :: responseOps r
  | _ :: r => responseOps r
  end.

(** An iteration that ran to the end of the loop body. *)
Definition completed (x : EntryExit) : bool :=
  match x with
  | Completed _ => true
  | _ => false
  end.

(** The listed entries whose iteration ran to the end of the body. *)
Definition completedEntries (rlist : list string) (exits : list EntryExit)
    : list string :=
  map fst (filter (fun p => completed (snd p)) (combine rlist exits)).

(** ** The other handlers of the file

    Their collaborators are recorded in a trace of their own: the events of
    the handlers above ([Core]) and one effect per further call. *)

Record RefreshIndexRequest := mkRefreshIndexRequest {
  reqRepoURI : RepoURI;
  reqCommitID : string
}.

Record ExtensionRequest := mkExtensionRequest {
  ExtensionID : string
}.

(** The extension records, by the one field [serveExtension] reads; a nil
    [*string] is [None]. *)
Record LocalExtension := mkLocalExtension { localManifest : option string }.
Record RemoteExtension := mkRemoteExtension { remoteManifest : option string }.

(** What [git.Archive] hands back, as [io.Copy] sees it: the pieces it
    reads and writes to the response one after the other (none for an
    empty archive), and the error that ends the copy, if any. *)
Record ArchiveReader := mkArchiveReader {
  chunks : list string;
  copyError : option error
}.

(** The bytes of the pieces, in order. *)
Fixpoint joinChunks (cs : list string) : string :=
  match cs with
  | [] => ""
  | c :: r => c ++ joinChunks r
  end.

(** An [interface{}] value of a dependency's data, by its text. *)
Definition Value := string.

Record DependencyReference := mkDependencyReference {
  DepData : list (string * Value)
}.

(** A [map[string]interface{}] with its keys in order; [None] is the nil
    map, a nil value is [None]. *)
Definition PkgQuery := option (list (string * option Value)).

Record ListPackagesOp := mkListPackagesOp {
  Lang : string;
  opPkgQuery : PkgQuery;
  Limit : Z
}.

Record RepoUnindexedDependenciesRequest := mkRepoUnindexedDependenciesRequest {
  RepoID : Z;
  Language : string
}.

(** A saved query of a settings document: its key and the rest of it. *)
Record ConfigSavedQuery := mkConfigSavedQuery {
  Key : string;
  queryRest : string
}.

Record Settings := mkSettings {
  Subject : string;
  Contents : string
}.

Record SavedQueryIDSpec := mkSavedQueryIDSpec {
  specSubject : string;
  specKey : string
}.

Record SavedQuerySpecAndConfig := mkSavedQuerySpecAndConfig {
  querySpec : SavedQueryIDSpec;
  queryConfig : ConfigSavedQuery
}.

Inductive Effect :=
| Core (e : Event)
| EDependenciesRefreshIndex (repo : RepoURI) (commitID : string)
| EPackagesRefreshIndex (repo : RepoURI) (commitID : string)
| EGetExtension (extensionID : string)
| EResolveRevision (repo : RepoURI) (spec : string)
| EArchive (repo : RepoURI) (treeish format : string)
| ECloseArchive
| EReposGet (id : Z)
| EReposResolveRev (repo : RepoURI) (rev : string)
| EDependenciesList (repo : RepoURI) (commitID : string) (excludePrivate : bool)
| EListPackages (op : ListPackagesOp)
| ESettingsListAll
| EEncode.

Record Services (W : Type) := mkServices {
  DependenciesRefreshIndex : Repo -> string -> W -> option error * W;
  PackagesRefreshIndex : Repo -> string -> W -> option error * W;
  GetExtensionByExtensionID :
    string -> W -> (option LocalExtension * option RemoteExtension * option error) * W;
  (** [errcode.IsNotFound] *)
  IsNotFound : error -> bool;
  (** [conf.NormalizeJSON] *)
  NormalizeJSON : string -> string;
  ResolveRevision : RepoURI -> string -> W -> result string * W;
  Archive : RepoURI -> string -> string -> W -> result ArchiveReader * W;
  ReposGet : Z -> W -> result Repo * W;
  ReposResolveRev : Repo -> string -> W -> result string * W;
  DependenciesList : Repo -> string -> bool -> W -> result (list DependencyReference) * W;
  (** the packages come back by name; only their number is read *)
  ListPackages : ListPackagesOp -> W -> result (list string) * W;
  (** [json.Marshal] of the dependencies left over *)
  marshalDependencies : list DependencyReference -> result string;
  SettingsListAll : W -> result (list Settings) * W;
  (** [conf.UnmarshalJSON] of a settings document, to its saved queries *)
  UnmarshalSavedQueries : string -> result (list ConfigSavedQuery);
  (** [json.NewEncoder(w).Encode] is handed the response writer: it answers
      with what it does to it and with its error *)
  EncodeQueries : list SavedQuerySpecAndConfig -> W -> (list Event * option error) * W
}.
Arguments DependenciesRefreshIndex {W} _ _ _ _.
Arguments PackagesRefreshIndex {W} _ _ _ _.
Arguments GetExtensionByExtensionID {W} _ _ _.
Arguments IsNotFound {W} _ _.
Arguments NormalizeJSON {W} _ _.
Arguments ResolveRevision {W} _ _ _ _.
Arguments Archive {W} _ _ _ _ _.
Arguments ReposGet {W} _ _ _.
Arguments ReposResolveRev {W} _ _ _ _.
Arguments DependenciesList {W} _ _ _ _ _.
Arguments ListPackages {W} _ _ _.
Arguments marshalDependencies {W} _ _.
Arguments SettingsListAll {W} _ _.
Arguments UnmarshalSavedQueries {W} _ _.
Arguments EncodeQueries {W} _ _ _.

Definition H (W A : Type) : Type := W -> A * W * list Effect.

Definition retH {W A} (a : A) : H W A := fun w => (a, w, []).

Definition bindH {W A B} (m : H W A) (k : A -> H W B) : H W B :=
  fun w =>
    let '(a, w1, t1) := m w in
    let '(b, w2, t2) := k a w1 in
    (b, w2, (t1 ++ t2)%list).

(** An operation on the response writer. *)
Definition respond {W} (e : Event) : H W unit := fun w => (tt, w, [Core e]).

(** An effect with no answer. *)
Definition effect {W} (e : Effect) : H W unit := fun w => (tt, w, [e]).

(** A collaborator call, recorded. *)
Definition invoke {W A} (e : Effect) (f : W -> A * W) : H W A :=
  fun w => let '(a, w1) := f w in (a, w1, [e]).

Declare Scope effect_scope.
Delimit Scope effect_scope with effect.
Notation "x <- m ;; k" := (bindH m (fun x => k))
  (at level 61, m at next level, right associativity) : effect_scope.
Notation "m ;;; k" := (bindH m (fun _ => k))
  (at level 61, right associativity) : effect_scope.

Definition valueH {W A} (r : A * W * list Effect) : A := fst (fst r).
Definition worldH {W A} (r : A * W * list Effect) : W := snd (fst r).
Definition traceH {W A} (r : A * W * list Effect) : list Effect := snd r.

(** [errors.Wrap(err, message)], by its text. *)
Definition Wrap (e : error) (message : string) : error := message ++ ": " ++ e.

(** A map lookup: the value of the first binding of the key, nil if there
    is none. *)
Fixpoint mapGet (k : string) (m : list (string * Value)) : option Value :=
  match m with
  | [] => None
  | (k', v) :: r => if k' =? k then Some v else mapGet k r
  end.

Definition depReferenceToPkgQuery (lang : string) (dep : DependencyReference)
    : PkgQuery :=
  if lang =? "Java" then Some [("id", mapGet "id" (DepData dep))] else None.

(** The response side of a trace of effects. *)
Fixpoint coreEvents (t : list Effect) : list Event :=
  match t with
  | [] => []
  | Core e :: r => e :: coreEvents r
  | _ :: r => coreEvents r
  end.

(** The archives requested, as (repository, treeish, format). *)
Fixpoint archives (t : list Effect) : list (RepoURI * string * string) :=
  match t with
  | [] => []
  | EArchive repo treeish format :: r => (repo, treeish, format) :: archives r
  | _ :: r => archives r
  end.

(** The package listings requested. *)
Fixpoint packageListings (t : list Effect) : list ListPackagesOp :=
  match t with
  | [] => []
  | EListPackages op :: r => op :: packageListings r
  | _ :: r => packageListings r
  end.

(** [l1] is [l2] with some elements left out. *)
Inductive Subsequence {A : Type} : list A -> list A -> Prop :=
| sub_nil : Subsequence [] []
| sub_skip (x : A) (l1 l2 : list A) : Subsequence l1 l2 -> Subsequence l1 (x :: l2)
| sub_take (x : A) (l1 l2 : list A) : Subsequence l1 l2 -> Subsequence (x :: l1) (x :: l2).

Section OtherHandlers.

Context {W : Type} (C : Collaborators W) (B : Services W).

Local Open Scope effect_scope.

(** [args] is the outcome of decoding the request body. *)
Definition serveDefsRefreshIndex (args : result RefreshIndexRequest)
    : H W (option error) :=
  match args with
  | Err e => retH (Some e)
  | Ok a =>
      r <- invoke (Core (EGetByURI (reqRepoURI a))) (GetByURI C (reqRepoURI a)) ;;
      match r with
      | Err e => retH (Some e)
      | Ok repo =>
          err <- invoke (EDependenciesRefreshIndex (URI repo) (reqCommitID a))
                   (DependenciesRefreshIndex B repo (reqCommitID a)) ;;
          match err with
          | Some _ => retH None
          | None =>
              respond (EWriteHeader 204) ;;;
              respond (EWrite "OK") ;;;
              retH None
          end
      end
  end.

Definition servePkgsRefreshIndex (args : result RefreshIndexRequest)
    : H W (option error) :=
  match args with
  | Err e => retH (Some e)
  | Ok a =>
      r <- invoke (Core (EGetByURI (reqRepoURI a))) (GetByURI C (reqRepoURI a)) ;;
      match r with
      | Err e => retH (Some e)
      | Ok repo =>
          err <- invoke (EPackagesRefreshIndex (URI repo) (reqCommitID a))
                   (PackagesRefreshIndex B repo (reqCommitID a)) ;;
          match err with
          | Some _ => retH None
          | None =>
              respond (EWriteHeader 204) ;;;
              respond (EWrite "OK") ;;;
              retH None
          end
      end
  end.

(** The manifest [serveExtension] answers with (lines 482 to 488). *)
Definition chosenManifest (local : option LocalExtension)
    (remote : option RemoteExtension) : option string :=
  match local with
  | Some l => localManifest l
  | None =>
      match remote with
      | Some r => remoteManifest r
      | None => None
      end
  end.

Definition serveExtension (args : result ExtensionRequest) : H W (option error) :=
  match args with
  | Err e => retH (Some e)
  | Ok a =>
      g <- invoke (EGetExtension (ExtensionID a))
             (GetExtensionByExtensionID B (ExtensionID a)) ;;
      let '(local, remote, err) := g in
      match err with
      | Some e =>
          (if IsNotFound B e then respond (EWriteHeader 404) else retH tt) ;;;
          retH (Some e)
      | None =>
          match chosenManifest local remote with
          | None =>
              respond (EWriteHeader 204) ;;;
              retH None
          | Some data =>
              respond (ESetHeader "Content-Type" "application/json; charset=utf-8") ;;;
              respond (EWrite (NormalizeJSON B data)) ;;;
              retH None
          end
      end
  end.

(** [name] and [spec] are the [RepoURI] and [Spec] route variables. *)
Definition serveGitResolveRevision (name : RepoURI) (spec : string)
    : H W (option error) :=
  c <- invoke (EResolveRevision name spec) (ResolveRevision B name spec) ;;
  match c with
  | Err e => retH (Some e)
  | Ok commitID =>
      respond (EWriteHeader 200) ;;;
      respond (EWrite commitID) ;;;
      retH None
  end.

(** [io.Copy(w, src)]: one write to the response for each piece read. *)
Fixpoint copyChunks (cs : list string) : H W unit :=
  match cs with
  | [] => retH tt
  | c :: r => respond (EWrite c) ;;; copyChunks r
  end.

(** [name] and [spec] are the [RepoURI] and [Commit] route variables.  The
    deferred [src.Close()] runs when the handler returns. *)
Definition serveGitTar (name : RepoURI) (spec : string) : H W (option error) :=
  c <- invoke (EResolveRevision name spec) (ResolveRevision B name spec) ;;
  match c with
  | Err e => retH (Some e)
  | Ok commit =>
      a <- invoke (EArchive name commit "tar") (Archive B name commit "tar") ;;
      match a with
      | Err e => retH (Some e)
      | Ok src =>
          respond (ESetHeader "Content-Type" "application/x-tar") ;;;
          respond (EWriteHeader 200) ;;;
          copyChunks (chunks src) ;;;
          effect ECloseArchive ;;;
          retH (copyError src)
      end
  end.

(** The loop of lines 191 to 200; [unfetched] is [unfetchedDeps] so far. *)
Fixpoint filterUnfetched (lang : string) (deps unfetched : list DependencyReference)
    : H W (result (list DependencyReference)) :=
  match deps with
  | [] => retH (Ok unfetched)
  | dep :: rest =>
      let op := mkListPackagesOp lang (depReferenceToPkgQuery lang dep) 1 in
      pkgs <- invoke (EListPackages op) (ListPackages B op) ;;
      match pkgs with
      | Err e => retH (Err e)
      | Ok ps =>
          filterUnfetched lang rest
            (if (Z.of_nat (List.length ps) =? 0)%Z
             then (unfetched ++ [dep])%list else unfetched)
      end
  end.

Definition serveReposUnindexedDependencies
    (args : result RepoUnindexedDependenciesRequest) : H W (option error) :=
  match args with
  | Err e => retH (Some e)
  | Ok a =>
      r <- invoke (EReposGet (RepoID a)) (ReposGet B (RepoID a)) ;;
      match r with
      | Err e => retH (Some e)
      | Ok repo =>
          c <- invoke (EReposResolveRev (URI repo) "") (ReposResolveRev B repo "") ;;
          match c with
          | Err e => retH (Some e)
          | Ok commitID =>
              d <- invoke (EDependenciesList (URI repo) commitID true)
                     (DependenciesList B repo commitID true) ;;
              match d with
              | Err e => retH (Some ("backend.Dependencies.List failed: " ++ e))
              | Ok deps =>
                  u <- filterUnfetched (Language a) deps [] ;;
                  match u with
                  | Err e => retH (Some e)
                  | Ok unfetchedDeps =>
                      match marshalDependencies B unfetchedDeps with
                      | Err e => retH (Some e)
                      | Ok data =>
                          respond (EWriteHeader 200) ;;;
                          respond (EWrite data) ;;;
                          retH None
                      end
                  end
              end
          end
      end
  end.

(** The inner loop of lines 296 to 302. *)
Fixpoint appendQueries (subject : string) (config : list ConfigSavedQuery)
    (queries : list SavedQuerySpecAndConfig) : list SavedQuerySpecAndConfig :=
  match config with
  | [] => queries
  | query :: rest =>
      appendQueries subject rest
        (queries
           ++ [mkSavedQuerySpecAndConfig (mkSavedQueryIDSpec subject (Key query)) query])%list
  end.

(** The loop of lines 291 to 303; [Err] is its [return err]. *)
Fixpoint collectQueries (settings : list Settings)
    (queries : list SavedQuerySpecAndConfig) : result (list SavedQuerySpecAndConfig) :=
  match settings with
  | [] => Ok queries
  | s :: rest =>
      match UnmarshalSavedQueries B (Contents s) with
      | Err e => Err e
      | Ok config => collectQueries rest (appendQueries (Subject s) config queries)
      end
  end.

Definition serveSavedQueriesListAll : H W (option error) :=
  l <- invoke ESettingsListAll (SettingsListAll B) ;;
  match l with
  | Err e => retH (Some (Wrap e "db.Settings.ListAll"))
  | Ok settings =>
      match collectQueries settings [] with
      | Err e => retH (Some e)
      | Ok queries =>
          fun w =>
            let '(evs, err, w1) := EncodeQueries B queries w in
            (match err with
             | Some e => Some (Wrap e "Encode")
             | None => None
             end,
             w1, (EEncode :: map Core evs)%list)
      end
  end.

End OtherHandlers.

(** The saved queries of one settings document, each with its spec. *)
Definition queriesOf (subject : string) (config : list ConfigSavedQuery)
    : list SavedQuerySpecAndConfig :=
  map (fun query =>
         mkSavedQuerySpecAndConfig (mkSavedQueryIDSpec subject (Key query)) query)
      config.

(** The prefix [packetWrite] writes in front of a payload. *)
Definition prefixOf (payload : string) : string :=
  GoString.Repeat "0"
    (padding (String.length (strconv.FormatInt (len payload + 4) 16)))
    ++ strconv.FormatInt (len payload + 4) 16.

(** The saved queries a settings document contributes; none if it does not
    parse. *)
Definition savedQueriesOf {W : Type} (B : Services W) (s : Settings)
    : list SavedQuerySpecAndConfig :=
  match UnmarshalSavedQueries B (Contents s) with
  | Ok config => queriesOf (Subject s) config
  | Err _ => []
  end.

(** The listing [filterUnfetched] requests for a dependency. *)
Definition listingFor (lang : string) (dep : DependencyReference) : ListPackagesOp :=
  mkListPackagesOp lang (depReferenceToPkgQuery lang dep) 1.

(** ** Services to run the other handlers on *)

Module Demo.

(** The world counts the calls made so far. *)
Definition services : Services nat :=
  mkServices nat
    (fun repo commit n => (if URI repo =? "a" then None else Some "index failed", Datatypes.S n))
    (fun repo commit n => (if URI repo =? "a" then None else Some "index failed", Datatypes.S n))
    (fun id n =>
       (if id =? "both"
        then (Some (mkLocalExtension None),
              Some (mkRemoteExtension (Some "{remote}")), None)
        else if id =? "local"
        then (Some (mkLocalExtension (Some "{local}")),
              Some (mkRemoteExtension (Some "{remote}")), None)
        else if id =? "remote"
        then (None, Some (mkRemoteExtension (Some "{remote}")), None)
        else if id =? "gone"
        then (None, None, Some "extension not found")
        else (None, None, Some "registry unreachable"),
        Datatypes.S n))
    (fun e => e =? "extension not found")
    (fun s => s)
    (fun repo spec n =>
       (if spec =? "master" then Ok "4b825dc642cb6eb9a060e54bf8d69288fbee4904"
        else Err "revision not found", Datatypes.S n))
    (fun repo treeish format n =>
       (if repo =? "a" then Ok (mkArchiveReader ["tar-"; "bytes"] None)
        else if repo =? "b" then Ok (mkArchiveReader ["tar-"] (Some "unexpected EOF"))
        else if repo =? "e" then Ok (mkArchiveReader [] None)
        else Err "archive failed", Datatypes.S n))
    (fun id n => (Ok (mkRepo "a" true), Datatypes.S n))
    (fun repo rev n => (Ok "4b825dc642cb6eb9a060e54bf8d69288fbee4904", Datatypes.S n))
    (fun repo commit excl n =>
       (Ok [mkDependencyReference [("id", "junit")];
            mkDependencyReference [("id", "guava")];
            mkDependencyReference [("name", "left-pad")]], Datatypes.S n))
    (fun op n =>
       (match opPkgQuery op with
        | Some [(_, Some "junit")] => Ok ["junit"]
        | Some [(_, None)] => Err "bad query"
        | _ => Ok []
        end, Datatypes.S n))
    (fun deps => Ok "[...]")
    (fun n =>
       (Ok [mkSettings "org:1" "two"; mkSettings "user:7" "one";
            mkSettings "user:8" "broken"], Datatypes.S n))
    (fun contents =>
       if contents =? "two"
       then Ok [mkConfigSavedQuery "k1" "todo"; mkConfigSavedQuery "k2" "fixme"]
       else if contents =? "one" then Ok [mkConfigSavedQuery "k3" "panic"]
       else Err "invalid JSON")
    (fun queries n => (([EWrite "[...]"], None), Datatypes.S n)).

(** A directory that knows the enabled repository [a] and nothing else. *)
Definition directory : Collaborators nat :=
  mkCollaborators nat
    (fun _ => mkConfig [] false)
    (fun _ n => (Ok [], n))
    (fun _ n => (None, n))
    (fun uri n =>
       (if uri =? "a" then Ok (mkRepo "a" true)
        else if uri =? "z" then Ok (mkRepo "z" true)
        else Err "repo not found", Datatypes.S n))
    (fun _ n => (Ok true, n))
    (fun _ n => (None, n))
    (fun _ _ _ n => n)
    (fun _ _ n => (Ok "", n))
    (fun _ _ n => ([], n)).

End Demo.

(** ** Facts about Go strings *)

Module GoStringFacts.
Import GoString.

Lemma length_append (a b : string) :
  String.length (a ++ b) = (String.length a + String.length b)%nat.
Proof. induction a as [|c a IH]; simpl; [reflexivity | now rewrite IH]. Qed.

Lemma append_assoc (a b c : string) : (a ++ b) ++ c = a ++ (b ++ c).
Proof. induction a as [|x a IH]; simpl; [reflexivity | now rewrite IH]. Qed.

Lemma append_nil_r (a : string) : a ++ "" = a.
Proof. induction a as [|x a IH]; simpl; [reflexivity | now rewrite IH]. Qed.

Lemma length_Repeat (s : string) (n : nat) :
  String.length (Repeat s n) = (n * String.length s)%nat.
Proof.
  induction n as [|n IH]; simpl; [reflexivity|].
  now rewrite length_append, IH.
Qed.

Lemma all_append (p : ascii -> bool) (a b : string) :
  all p (a ++ b) = all p a && all p b.
Proof.
  induction a as [|c a IH]; simpl; [reflexivity|].
  now rewrite IH, andb_assoc.
Qed.

Lemma all_Repeat (p : ascii -> bool) (c : ascii) (n : nat) :
  p c = true -> all p (Repeat (String c "") n) = true.
Proof. intros Hc. induction n as [|n IH]; simpl; [reflexivity | now rewrite Hc, IH]. Qed.

End GoStringFacts.

(** ** The digits of [FormatInt] in base 16 *)

Module strconvFacts.
Import strconv GoString GoStringFacts.

Lemma hexval_digit (d : Z) : (0 <= d < 16)%Z -> hexval (digit d) = Some d.
Proof.
  intros H.
  assert (E : (d = 0 \/ d = 1 \/ d = 2 \/ d = 3 \/ d = 4 \/ d = 5 \/ d = 6
              \/ d = 7 \/ d = 8 \/ d = 9 \/ d = 10 \/ d = 11 \/ d = 12
              \/ d = 13 \/ d = 14 \/ d = 15)%Z) by lia.
  repeat (destruct E as [E|E]; [subst d; reflexivity|]).
  subst d; reflexivity.
Qed.

Lemma parseHexFrom_append (a b : string) : forall v,
  parseHexFrom v (a ++ b) =
  match parseHexFrom v a with
  | Some x => parseHexFrom x b
  | None => None
  end.
Proof.
  induction a as [|c a IH]; intros v; simpl; [reflexivity|].
  destruct (hexval c); [apply IH | reflexivity].
Qed.

Lemma parseHexFrom_zeros (n : nat) (s : string) :
  parseHexFrom 0 (Repeat "0" n ++ s) = parseHexFrom 0 s.
Proof. induction n as [|n IH]; simpl; [reflexivity | exact IH]. Qed.

Lemma formatBits_S (f : nat) (u base : Z) (acc : string) :
  formatBits (S f) u base acc =
  if (base <=? u)%Z
  then formatBits f (u / base)%Z base (String (digit (u mod base)) acc)
  else String (digit u) acc.
Proof. reflexivity. Qed.

(** What the digit loop produces for a value below [16 ^ (fuel)]: the
    digits are put in front of [acc], they read back as the value, and
    their number is the number of hexadecimal digits of the value. *)
Lemma formatBits_hex (f : nat) : forall (u : Z) (acc : string),
  (0 <= u < 16 ^ Z.of_nat (S f))%Z ->
  exists s,
    formatBits (S f) u 16 acc = s ++ acc
    /\ parseHexFrom 0 s = Some u
    /\ all isLowerHex s = true
    /\ (1 <= String.length s)%nat
    /\ (forall k, (u < 16 ^ Z.of_nat k)%Z -> (1 <= k)%nat -> (String.length s <= k)%nat)
    /\ (forall j, (16 ^ Z.of_nat j <= u)%Z -> (j < String.length s)%nat).
Proof.
  assert (Small : forall g u acc, (0 <= u < 16)%Z ->
    exists s,
      formatBits (S g) u 16 acc = s ++ acc
      /\ parseHexFrom 0 s = Some u
      /\ all isLowerHex s = true
      /\ (1 <= String.length s)%nat
      /\ (forall k, (u < 16 ^ Z.of_nat k)%Z -> (1 <= k)%nat -> (String.length s <= k)%nat)
      /\ (forall j, (16 ^ Z.of_nat j <= u)%Z -> (j < String.length s)%nat)).
  { intros g u acc Hu. exists (String (digit u) "").
    rewrite formatBits_S. destruct (Z.leb_spec 16 u) as [Hge|_]; [lia|].
    repeat split.
    - unfold parseHexFrom. rewrite (hexval_digit u Hu). f_equal; lia.
    - cbn [all]. unfold isLowerHex. now rewrite (hexval_digit u Hu).
    - simpl; lia.
    - simpl; lia.
    - intros j Hj. destruct j as [|j]; simpl; [lia|].
      exfalso.
      assert (16 ^ 1 <= 16 ^ Z.of_nat (S j))%Z
        by (apply Z.pow_le_mono_r; lia).
      lia. }
  induction f as [|f IH]; intros u acc Hu.
  - apply Small. change (16 ^ Z.of_nat 1)%Z with 16%Z in Hu. exact Hu.
  - destruct (Z_lt_le_dec u 16) as [Hlt|Hge]; [apply Small; lia|].
    rewrite formatBits_S. destruct (Z.leb_spec 16 u) as [_|Hlt]; [|lia].
    assert (Hpow : (16 ^ Z.of_nat (S (S f)) = 16 * 16 ^ Z.of_nat (S f))%Z).
    { rewrite (Nat2Z.inj_succ (S f)), Z.pow_succ_r by lia. reflexivity. }
    assert (Hdiv : (0 <= u / 16 < 16 ^ Z.of_nat (S f))%Z).
    { split; [apply Z.div_pos; lia|].
      apply Z.div_lt_upper_bound; lia. }
    assert (Hmod : (0 <= u mod 16 < 16)%Z) by (apply Z.mod_pos_bound; lia).
    destruct (IH (u / 16)%Z (String (digit (u mod 16)) acc) Hdiv)
      as (s & Hs & Hparse & Hall & Hlen1 & Hup & Hlow).
    exists (s ++ String (digit (u mod 16)) "").
    repeat split.
    + rewrite Hs, append_assoc. reflexivity.
    + rewrite parseHexFrom_append, Hparse. cbn [parseHexFrom].
      rewrite (hexval_digit _ Hmod). f_equal.
      pose proof (Z.div_mod u 16). lia.
    + rewrite all_append, Hall. cbn [all]. unfold isLowerHex.
      now rewrite (hexval_digit _ Hmod).
    + rewrite length_append; simpl; lia.
    + intros k Hk Hk1. rewrite length_append; simpl.
      destruct k as [|[|k]]; [lia| change (16 ^ Z.of_nat 1)%Z with 16%Z in Hk; lia |].
      assert (String.length s <= S k)%nat; [|lia].
      apply Hup; [|lia].
      rewrite (Nat2Z.inj_succ (S k)), Z.pow_succ_r in Hk by lia.
      apply Z.div_lt_upper_bound; lia.
    + intros j Hj. rewrite length_append; simpl.
      destruct j as [|j]; [lia|].
      assert (j < String.length s)%nat; [|lia].
      apply Hlow.
      rewrite (Nat2Z.inj_succ j), Z.pow_succ_r in Hj by lia.
      apply Z.div_le_lower_bound; lia.
Qed.

(** [FormatInt] of a non-negative 64-bit value in base 16. *)
Lemma FormatInt_hex (i : Z) :
  (0 <= i < 2 ^ 64)%Z ->
  parseHex (FormatInt i 16) = Some i
  /\ all isLowerHex (FormatInt i 16) = true
  /\ (1 <= String.length (FormatInt i 16))%nat
  /\ (forall k, (i < 16 ^ Z.of_nat k)%Z -> (1 <= k)%nat ->
                (String.length (FormatInt i 16) <= k)%nat)
  /\ (forall j, (16 ^ Z.of_nat j <= i)%Z -> (j < String.length (FormatInt i 16))%nat).
Proof.
  intros Hi. unfold FormatInt.
  destruct (Z.ltb_spec i 0) as [Hneg|_]; [lia|].
  destruct (formatBits_hex 63 i "") as (s & Hs & Hrest).
  { split; [lia|].
    apply Z.lt_le_trans with (2 ^ 64)%Z; [lia|].
    change (16 ^ Z.of_nat 64)%Z with ((2 ^ 64) * (2 ^ 192))%Z. lia. }
  rewrite Hs, append_nil_r. exact Hrest.
Qed.

End strconvFacts.

(** ** The pkt-line encoder *)

Module PktLine.
Import strconv GoString GoStringFacts strconvFacts.

Lemma int64_small (z : Z) : (0 <= z < 2 ^ 63)%Z -> int64 z = z.
Proof.
  intros H. unfold int64.
  rewrite Z.mod_small; [lia|].
  change (2 ^ 64)%Z with (2 ^ 63 + 2 ^ 63)%Z. lia.
Qed.

(** The shape of every result of [packetWrite]: the digits of the length,
    padded with zeros to a multiple of four, then the payload. *)
Lemma packetWrite_shape (str : string) :
  (len str + 4 < 2 ^ 63)%Z ->
  packetWrite str =
  (Repeat "0" (padding (String.length (FormatInt (len str + 4) 16)))
     ++ FormatInt (len str + 4) 16) ++ str.
Proof.
  intros Hlen. unfold packetWrite.
  rewrite int64_small by (unfold len in *; lia).
  set (h := FormatInt (len str + 4) 16).
  f_equal. unfold padding, len.
  assert (Hz : (Z.of_nat (String.length h) mod 4
                = Z.of_nat (String.length h mod 4))%Z)
    by (rewrite Nat2Z.inj_mod; reflexivity).
  rewrite Hz.
  pose proof (Nat.mod_upper_bound (String.length h) 4 ltac:(lia)) as Hm.
  destruct (Z.eqb_spec (Z.of_nat (String.length h mod 4)) 0) as [E|E]; cbn [negb].
  - assert (E' : (String.length h mod 4 = 0)%nat) by lia.
    rewrite E'. reflexivity.
  - f_equal. f_equal.
    replace (Z.to_nat (4 - Z.of_nat (String.length h mod 4)))
      with (4 - String.length h mod 4)%nat by lia.
    symmetry. apply Nat.mod_small. lia.
Qed.

Lemma padding_spec (n : nat) :
  ((padding n + n) mod 4 = 0)%nat /\ (padding n < 4)%nat.
Proof.
  unfold padding.
  pose proof (Nat.div_mod_eq n 4) as Hd.
  pose proof (Nat.mod_upper_bound n 4 ltac:(lia)) as Hm.
  split; [|apply Nat.mod_upper_bound; lia].
  destruct (Nat.eq_dec (n mod 4) 0) as [E|E].
  - rewrite E. exact E.
  - rewrite (Nat.mod_small (4 - n mod 4) 4) by lia.
    replace (4 - n mod 4 + n)%nat with ((n / 4 + 1) * 4)%nat by lia.
    apply Nat.Div0.mod_mul.
Qed.

Lemma padded_prefix (n : Z) :
  (0 <= n < 2 ^ 64)%Z ->
  let h := FormatInt n 16 in
  let pre := Repeat "0" (padding (String.length h)) ++ h in
  parseHex pre = Some n
  /\ all isLowerHex pre = true
  /\ (String.length pre mod 4 = 0)%nat
  /\ (4 <= String.length pre)%nat.
Proof.
  intros Hn h pre.
  destruct (FormatInt_hex n Hn) as (Hparse & Hall & Hlen1 & _).
  fold h in Hparse, Hall, Hlen1.
  assert (Hlen : String.length pre = (padding (String.length h) + String.length h)%nat).
  { unfold pre. rewrite length_append, length_Repeat.
    change (String.length "0") with 1%nat. lia. }
  repeat split.
  - unfold pre, parseHex. rewrite parseHexFrom_zeros. exact Hparse.
  - unfold pre. rewrite all_append, Hall, all_Repeat; reflexivity.
  - rewrite Hlen. apply padding_spec.
  - rewrite Hlen. pose proof (padding_spec (String.length h)) as (Hp & _).
    destruct (padding (String.length h) + String.length h)%nat
      as [|[|[|[|m]]]] eqn:E; try lia; discriminate Hp.
Qed.

(** A payload of at most 65516 bytes has a length of at most four
    digits, padded to exactly four. *)
Lemma short_payload (payload : string) :
  (len payload <= 65516)%Z ->
  (0 <= len payload + 4 < 2 ^ 64)%Z
  /\ (String.length (FormatInt (len payload + 4) 16) <= 4)%nat
  /\ padding (String.length (FormatInt (len payload + 4) 16))
     = (4 - String.length (FormatInt (len payload + 4) 16))%nat.
Proof.
  intros HL.
  assert (Hn : (0 <= len payload + 4 < 2 ^ 64)%Z).
  { pose proof (Nat2Z.is_nonneg (String.length payload)) as H0.
    fold (len payload) in H0. split; [lia|].
    apply Z.le_lt_trans with 65520%Z; [lia | reflexivity]. }
  split; [exact Hn|].
  destruct (FormatInt_hex _ Hn) as (_ & _ & Hlen1 & Hup & _).
  set (h := FormatInt (len payload + 4) 16) in *.
  assert (Hlen4 : (String.length h <= 4)%nat).
  { apply Hup; [|lia]. change (16 ^ Z.of_nat 4)%Z with 65536%Z. lia. }
  split; [exact Hlen4|].
  unfold padding.
  assert (E : (String.length h = 1 \/ String.length h = 2
               \/ String.length h = 3 \/ String.length h = 4)%nat) by lia.
  destruct E as [E|[E|[E|E]]]; rewrite E; reflexivity.
Qed.

(** On the payloads the specification admits, [packetWrite] is the
    encoder the specification describes. *)
Lemma packetWrite_refines_spec (payload : string) :
  (len payload <= 65516)%Z ->
  encodeLine_spec payload = Some (packetWrite payload).
Proof.
  intros HL. destruct (short_payload payload HL) as (Hn & _ & Hpad).
  unfold encodeLine_spec.
  destruct (Z.leb_spec (len payload) 65516) as [_|Hgt]; [|lia].
  rewrite packetWrite_shape
    by (apply Z.le_lt_trans with 65520%Z; [lia | reflexivity]).
  rewrite Hpad, append_assoc. reflexivity.
Qed.

(** C5: for every payload of length [L] with [0 <= L <= 65516],
    [packetWrite] returns [L + 4] bytes: a prefix of exactly 4 lower-case
    hexadecimal characters, which is the hexadecimal of [L + 4] left-padded
    with ['0'] and parses back to [L + 4], followed by the payload
    unchanged. *)
Theorem packetWrite_frame (payload : string) :
  (len payload <= 65516)%Z ->
  let h := FormatInt (len payload + 4) 16 in
  let pre := Repeat "0" (4 - String.length h) ++ h in
  packetWrite payload = pre ++ payload
  /\ String.length pre = 4%nat
  /\ all isLowerHex pre = true
  /\ parseHex pre = Some (len payload + 4)%Z
  /\ String.length (packetWrite payload) = (String.length payload + 4)%nat.
Proof.
  intros HL h pre.
  destruct (short_payload payload HL) as (Hn & Hlen4 & Hpad).
  fold h in Hlen4, Hpad.
  destruct (padded_prefix _ Hn) as (Hparse & Hall & _ & _).
  fold h in Hparse, Hall. rewrite Hpad in Hparse, Hall. fold pre in Hparse, Hall.
  assert (Hshape : packetWrite payload = pre ++ payload).
  { rewrite packetWrite_shape.
    - fold h. rewrite Hpad. reflexivity.
    - apply Z.le_lt_trans with 65520%Z; [lia | reflexivity]. }
  assert (Hpre : String.length pre = 4%nat).
  { unfold pre. rewrite length_append, length_Repeat.
    change (String.length "0") with 1%nat. lia. }
  repeat split; try assumption.
  rewrite Hshape, length_append, Hpre. lia.
Qed.

Lemma packetWrite_frame_witness :
  (len serviceLine <= 65516)%Z
  /\ packetWrite serviceLine = "001e" ++ serviceLine
  /\ String.length (packetWrite serviceLine) = 30%nat.
Proof.
  assert (H : (len serviceLine <= 65516)%Z) by (vm_compute; discriminate).
  destruct (packetWrite_frame serviceLine H) as (Hshape & _ & _ & _ & Hlen).
  split; [exact H|]. split; [exact Hshape | exact Hlen].
Defined.

(** C6, as the code has it: a payload longer than 65516 bytes is not
    rejected.  [packetWrite] frames it like any other: the hexadecimal of
    [L + 4], left-padded with ['0'] to a multiple of four characters, then
    the payload; the prefix has 4 characters up to [L = 65531] and 8 or
    more beyond. *)
Theorem packetWrite_long_payload (payload : string) :
  (65516 < len payload)%Z ->
  (len payload + 4 < 2 ^ 63)%Z ->
  let h := FormatInt (len payload + 4) 16 in
  let pre := Repeat "0" (padding (String.length h)) ++ h in
  packetWrite payload = pre ++ payload
  /\ parseHex pre = Some (len payload + 4)%Z
  /\ all isLowerHex pre = true
  /\ (String.length pre mod 4 = 0)%nat
  /\ ((len payload <= 65531)%Z -> String.length pre = 4%nat)
  /\ ((65531 < len payload)%Z -> (8 <= String.length pre)%nat).
Proof.
  intros HL Hmax h pre.
  assert (Hn : (0 <= len payload + 4 < 2 ^ 64)%Z).
  { split; [lia|]. apply Z.lt_trans with (2 ^ 63)%Z; [exact Hmax | reflexivity]. }
  destruct (FormatInt_hex _ Hn) as (_ & _ & Hlen1 & Hup & Hlow).
  destruct (padded_prefix _ Hn) as (Hparse & Hall & Hmod & Hge).
  fold h in Hlen1, Hup, Hlow, Hparse, Hall, Hmod, Hge.
  fold pre in Hparse, Hall, Hmod, Hge.
  pose proof (padding_spec (String.length h)) as (_ & Hpad).
  assert (Hpre : String.length pre = (padding (String.length h) + String.length h)%nat).
  { unfold pre. rewrite length_append, length_Repeat.
    change (String.length "0") with 1%nat. lia. }
  repeat split; try assumption.
  - rewrite packetWrite_shape by exact Hmax. reflexivity.
  - intros Hsmall.
    assert (String.length h <= 4)%nat.
    { apply Hup; [|lia]. change (16 ^ Z.of_nat 4)%Z with 65536%Z. lia. }
    destruct (String.length pre) as [|[|[|[|[|[|[|[|m]]]]]]]] eqn:E;
      try lia; try discriminate Hmod.
  - intros Hbig.
    assert (4 < String.length h)%nat.
    { apply Hlow. change (16 ^ Z.of_nat 4)%Z with 65536%Z. lia. }
    destruct (String.length pre) as [|[|[|[|[|[|[|[|m]]]]]]]] eqn:E;
      try lia; try discriminate Hmod.
Qed.

Lemma packetWrite_long_payload_witness :
  (65516 < len longPayload)%Z
  /\ (len longPayload + 4 < 2 ^ 63)%Z
  /\ packetWrite longPayload
     = (Repeat "0" (padding (String.length (FormatInt (len longPayload + 4) 16)))
          ++ FormatInt (len longPayload + 4) 16) ++ longPayload.
Proof.
  assert (H1 : (65516 < len longPayload)%Z) by (vm_compute; reflexivity).
  assert (H2 : (len longPayload + 4 < 2 ^ 63)%Z) by (vm_compute; reflexivity).
  destruct (packetWrite_long_payload longPayload H1 H2) as (Hshape & _).
  split; [exact H1|]. split; [exact H2 | exact Hshape].
Defined.

(** C6, as stated, fails: the specified encoder rejects a payload of
    65517 bytes, [packetWrite] returns the frame ["fff1"] followed by the
    payload. *)
Lemma packetWrite_frames_65517_bytes :
  len longPayload = 65517%Z
  /\ encodeLine_spec longPayload = None
  /\ packetWrite longPayload = "fff1" ++ longPayload.
Proof.
  split; [vm_compute; reflexivity|].
  split; [vm_compute; reflexivity|].
  apply String.eqb_eq. vm_compute. reflexivity.
Qed.

(** The frame of an empty payload is not the flush frame. *)
Example packetWrite_empty : packetWrite "" = "0004".
Proof. reflexivity. Qed.

Example packetWrite_15_bytes : packetWrite "want 0123456789" = "0013want 0123456789".
Proof. reflexivity. Qed.

End PktLine.

(** ** The smart-HTTP bridge *)

Module Bridge.

Section Facts.

Context {W : Type} (C : Collaborators W).

(** C7: for every value of the service parameter other than the literal
    ["git-upload-pack"], the ref advertisement fails with the
    unsupported-service error and does nothing else: the world is
    unchanged and the trace is empty, so no repository is resolved, the
    git backend is not called and no byte is written. *)
Theorem serveGitInfoRefs_unsupported_service
    (service : string) (uri : RepoURI) (w : W) :
  service <> "git-upload-pack" ->
  serveGitInfoRefs C service uri w
    = (Some "only support service git-upload-pack", w, [])
  /\ lookups (trace (serveGitInfoRefs C service uri w)) = []
  /\ backendCalls (trace (serveGitInfoRefs C service uri w)) = []
  /\ body (trace (serveGitInfoRefs C service uri w)) = "".
Proof.
  intros Hs.
  assert (E : serveGitInfoRefs C service uri w
              = (Some "only support service git-upload-pack", w, [])).
  { unfold serveGitInfoRefs.
    destruct (String.eqb_spec service "git-upload-pack") as [Heq|_];
      [contradiction | reflexivity]. }
  rewrite E. repeat split.
Qed.

(** The advertisement on its successful path. *)
Lemma serveGitInfoRefs_ok (uri : RepoURI) (w w1 w2 : W) (repo : Repo)
    (refs : string) :
  GetByURI C uri w = (Ok repo, w1) ->
  Enabled repo = true ->
  CommandOutput C (URI repo) advertiseArgs w1 = (Ok refs, w2) ->
  serveGitInfoRefs C "git-upload-pack" uri w
    = (None, w2,
       [EGetByURI uri;
        ECommandOutput (URI repo) advertiseArgs;
        ESetHeader "Content-Type" "application/x-git-upload-pack-advertisement";
        EWriteHeader 200;
        EWrite (packetWrite serviceLine);
        EWrite "0000";
        EWrite refs]).
Proof.
  intros Hget Hen Hout.
  unfold serveGitInfoRefs.
  change ("git-upload-pack" =? "git-upload-pack") with true. cbn [negb].
  unfold bind, call, emit, ret.
  rewrite Hget. cbn [negb]. rewrite Hen. cbn [negb]. rewrite Hout.
  reflexivity.
Qed.

(** C4: for a repository that resolves, is enabled and whose
    advertise-refs call answers [refs], the response body is
    [packetWrite] of the service line, which is the frame
    ["001e# service=git-upload-pack\n"] the specified encoder gives, then
    the flush frame ["0000"], then [refs] as they are, and the Content-Type
    in force when the response starts is the upload-pack advertisement
    media type: it is set before the status line and before any byte of the
    body. *)
Theorem serveGitInfoRefs_advertisement (uri : RepoURI) (w w1 w2 : W)
    (repo : Repo) (refs : string) :
  GetByURI C uri w = (Ok repo, w1) ->
  Enabled repo = true ->
  CommandOutput C (URI repo) advertiseArgs w1 = (Ok refs, w2) ->
  value (serveGitInfoRefs C "git-upload-pack" uri w) = None
  /\ body (trace (serveGitInfoRefs C "git-upload-pack" uri w))
     = packetWrite serviceLine ++ "0000" ++ refs
  /\ contentType (trace (serveGitInfoRefs C "git-upload-pack" uri w))
     = Some "application/x-git-upload-pack-advertisement"
  /\ (exists before after,
       trace (serveGitInfoRefs C "git-upload-pack" uri w)
       = (before
            ++ ESetHeader "Content-Type"
                 "application/x-git-upload-pack-advertisement" :: after)%list
       /\ body before = ""
       /\ body after = packetWrite serviceLine ++ "0000" ++ refs)
  /\ encodeLine_spec ("# service=git-upload-pack" ++ GoString.LF)
     = Some ("001e# service=git-upload-pack" ++ GoString.LF)
  /\ body (trace (serveGitInfoRefs C "git-upload-pack" uri w))
     = "001e# service=git-upload-pack" ++ GoString.LF ++ "0000" ++ refs.
Proof.
  intros Hget Hen Hout.
  rewrite (serveGitInfoRefs_ok uri w w1 w2 repo refs Hget Hen Hout).
  assert (Hbody : forall r, body [EWrite (packetWrite serviceLine); EWrite "0000"; EWrite r]
                       = packetWrite serviceLine ++ "0000" ++ r).
  { intros r. cbn [body]. now rewrite GoStringFacts.append_nil_r. }
  assert (Hframe : packetWrite serviceLine
                   = "001e# service=git-upload-pack" ++ GoString.LF)
    by reflexivity.
  split; [reflexivity|].
  split; [cbn [trace snd body]; apply Hbody|].
  split; [reflexivity|].
  split.
  { exists [EGetByURI uri; ECommandOutput (URI repo) advertiseArgs].
    exists [EWriteHeader 200; EWrite (packetWrite serviceLine); EWrite "0000";
            EWrite refs].
    repeat split. cbn [body]. apply Hbody. }
  split; [reflexivity|].
  transitivity (packetWrite serviceLine ++ "0000" ++ refs).
  - cbn [trace snd body]. apply Hbody.
  - rewrite Hframe, GoStringFacts.append_assoc. reflexivity.
Qed.

(** C3, as the code has it: for a repository whose record has
    [Enabled = false], the ref advertisement fails with the
    not-enabled error after the lookup alone (no backend call, no byte
    written), while the upload-pack proxy does not look at the flag: it
    hands the request to the backend's [UploadPack] and returns no
    error. *)
Theorem disabled_repository (uri : RepoURI) (request : string)
    (w w1 : W) (repo : Repo) :
  GetByURI C uri w = (Ok repo, w1) ->
  Enabled repo = false ->
  serveGitInfoRefs C "git-upload-pack" uri w
    = (Some ("repo is not enabled: " ++ URI repo), w1, [EGetByURI uri])
  /\ serveGitUploadPack C uri request w
    = (None, snd (UploadPack C (URI repo) request w1),
       (EGetByURI uri :: EUploadPack (URI repo) request
          :: fst (UploadPack C (URI repo) request w1))%list).
Proof.
  intros Hget Hen. split.
  - unfold serveGitInfoRefs.
    change ("git-upload-pack" =? "git-upload-pack") with true. cbn [negb].
    unfold bind, call, ret.
    rewrite Hget. cbn [negb]. rewrite Hen. reflexivity.
  - unfold serveGitUploadPack, bind, call.
    rewrite Hget. destruct (UploadPack C (URI repo) request w1). reflexivity.
Qed.

End Facts.

Lemma serveGitInfoRefs_unsupported_service_witness :
  "git-receive-pack" <> "git-upload-pack"
  /\ serveGitInfoRefs Sim.collaborators "git-receive-pack" "a" Sim.abc
     = (Some "only support service git-upload-pack", Sim.abc, []).
Proof.
  assert (H : "git-receive-pack" <> "git-upload-pack") by discriminate.
  split; [exact H|].
  exact (proj1 (serveGitInfoRefs_unsupported_service Sim.collaborators
                  "git-receive-pack" "a" Sim.abc H)).
Defined.

Lemma serveGitInfoRefs_advertisement_witness :
  GetByURI Sim.collaborators "a" Sim.abc = (Ok (mkRepo "a" true), Sim.abc)
  /\ CommandOutput Sim.collaborators "a" advertiseArgs Sim.abc
     = (Ok "003fdeadbeef HEAD0000", Sim.abc)
  /\ body (trace (serveGitInfoRefs Sim.collaborators "git-upload-pack" "a" Sim.abc))
     = "001e# service=git-upload-pack" ++ GoString.LF ++ "0000"
         ++ "003fdeadbeef HEAD0000".
Proof.
  assert (H1 : GetByURI Sim.collaborators "a" Sim.abc
               = (Ok (mkRepo "a" true), Sim.abc)) by reflexivity.
  assert (H2 : Enabled (mkRepo "a" true) = true) by reflexivity.
  assert (H3 : CommandOutput Sim.collaborators (URI (mkRepo "a" true))
                 advertiseArgs Sim.abc
               = (Ok "003fdeadbeef HEAD0000", Sim.abc)) by reflexivity.
  split; [exact H1|]. split; [exact H3|].
  exact (proj2 (proj2 (proj2 (proj2 (proj2
           (serveGitInfoRefs_advertisement Sim.collaborators
              "a" Sim.abc Sim.abc Sim.abc (mkRepo "a" true)
              "003fdeadbeef HEAD0000" H1 H2 H3)))))).
Defined.

Lemma disabled_repository_witness :
  GetByURI Sim.collaborators "d" Sim.mixed = (Ok (mkRepo "d" false), Sim.mixed)
  /\ serveGitInfoRefs Sim.collaborators "git-upload-pack" "d" Sim.mixed
     = (Some "repo is not enabled: d", Sim.mixed, [EGetByURI "d"]).
Proof.
  assert (H1 : GetByURI Sim.collaborators "d" Sim.mixed
               = (Ok (mkRepo "d" false), Sim.mixed)) by reflexivity.
  assert (H2 : Enabled (mkRepo "d" false) = false) by reflexivity.
  split; [exact H1|].
  exact (proj1 (disabled_repository Sim.collaborators "d" "0032want"
                  Sim.mixed Sim.mixed (mkRepo "d" false) H1 H2)).
Defined.

(** C3, as stated, fails for the upload-pack proxy: on the disabled
    repository [d] it returns no error, calls the backend and the backend
    writes its answer to the response. *)
Lemma serveGitUploadPack_serves_disabled :
  GetByURI Sim.collaborators "d" Sim.mixed = (Ok (mkRepo "d" false), Sim.mixed)
  /\ serveGitUploadPack Sim.collaborators "d" "0032want" Sim.mixed
     = (None, Sim.mixed,
        [EGetByURI "d"; EUploadPack "d" "0032want"; EWrite "0008NAK"])
  /\ backendCalls (trace (serveGitUploadPack Sim.collaborators "d" "0032want" Sim.mixed))
     = [EUploadPack "d" "0032want"]
  /\ body (trace (serveGitUploadPack Sim.collaborators "d" "0032want" Sim.mixed))
     = "0008NAK".
Proof. repeat split. Qed.

End Bridge.

(** ** The sync handler *)

Module Sync.

Section Facts.

Context {W : Type} (C : Collaborators W).

Ltac run := unfold bind, call, emit, ret, ask.

Lemma metadataStep_trace (gconf : GitoliteConnection) (uri : RepoURI)
    (entry : string) (w : W) :
  trace (metadataStep C gconf uri entry w)
  = if negb (PhabricatorMetadataCommand gconf =? "")
    then [EPhabricatorMetadata gconf uri entry]
    else [].
Proof.
  unfold metadataStep.
  destruct (PhabricatorMetadataCommand gconf =? ""); reflexivity.
Qed.

(** *** The exits of one iteration *)

Lemma reconcileEntry_lookup_failed gconf entry w e w1 :
  GetByURI C entry w = (Err e, w1) ->
  reconcileEntry C gconf entry w
  = (LookupFailed e, w1,
     [EGetByURI entry; ELog Warn "Could not ensure repository updated"]).
Proof. intros H. unfold reconcileEntry. run. rewrite H. reflexivity. Qed.

Lemma reconcileEntry_not_enabled gconf entry w repo w1 :
  GetByURI C entry w = (Ok repo, w1) ->
  Enabled repo = false ->
  reconcileEntry C gconf entry w = (NotEnabled, w1, [EGetByURI entry]).
Proof.
  intros H He. unfold reconcileEntry. run. rewrite H. cbn [negb].
  rewrite He. reflexivity.
Qed.

Lemma reconcileEntry_clone_check_failed gconf entry w repo w1 e w2 :
  GetByURI C entry w = (Ok repo, w1) ->
  Enabled repo = true ->
  IsRepoCloned C entry w1 = (Err e, w2) ->
  reconcileEntry C gconf entry w
  = (CloneCheckFailed e, w2,
     [EGetByURI entry; EIsRepoCloned entry;
      ELog Warn "Could not ensure repository cloned"]).
Proof.
  intros H He Hc. unfold reconcileEntry. run. rewrite H. cbn [negb].
  rewrite He. cbn [negb]. rewrite Hc. reflexivity.
Qed.

Lemma reconcileEntry_not_enqueued gconf entry w repo w1 cloned w2 :
  GetByURI C entry w = (Ok repo, w1) ->
  Enabled repo = true ->
  IsRepoCloned C entry w1 = (Ok cloned, w2) ->
  shouldEnqueue (DisableAutoGitUpdates (conf_Get C w2)) cloned = false ->
  reconcileEntry C gconf entry w
  = (Completed false,
     world (metadataStep C gconf entry entry w2),
     ([EGetByURI entry; EIsRepoCloned entry]
        ++ trace (metadataStep C gconf entry entry w2))%list).
Proof.
  intros H He Hc Hd. unfold reconcileEntry. run. rewrite H. cbn [negb].
  rewrite He. cbn [negb]. rewrite Hc. cbn [negb]. rewrite Hd.
  destruct (metadataStep C gconf entry entry w2) as [[u w3] t].
  cbn [world trace fst snd]. now rewrite app_nil_r.
Qed.

Lemma reconcileEntry_enqueue_failed gconf entry w repo w1 cloned w2 e w3 :
  GetByURI C entry w = (Ok repo, w1) ->
  Enabled repo = true ->
  IsRepoCloned C entry w1 = (Ok cloned, w2) ->
  shouldEnqueue (DisableAutoGitUpdates (conf_Get C w2)) cloned = true ->
  EnqueueRepoUpdate C (URI repo) w2 = (Some e, w3) ->
  reconcileEntry C gconf entry w
  = (EnqueueFailed e, w3,
     [EGetByURI entry; EIsRepoCloned entry;
      ELog Info "fetching Gitolite repo"; EEnqueueRepoUpdate (URI repo);
      ELog Warn "Could not ensure repository cloned"]).
Proof.
  intros H He Hc Hd Hq. unfold reconcileEntry. run. rewrite H. cbn [negb].
  rewrite He. cbn [negb]. rewrite Hc. cbn [negb]. rewrite Hd, Hq.
  reflexivity.
Qed.

Lemma reconcileEntry_enqueued gconf entry w repo w1 cloned w2 w3 :
  GetByURI C entry w = (Ok repo, w1) ->
  Enabled repo = true ->
  IsRepoCloned C entry w1 = (Ok cloned, w2) ->
  shouldEnqueue (DisableAutoGitUpdates (conf_Get C w2)) cloned = true ->
  EnqueueRepoUpdate C (URI repo) w2 = (None, w3) ->
  reconcileEntry C gconf entry w
  = (Completed true,
     world (metadataStep C gconf entry entry w3),
     ([EGetByURI entry; EIsRepoCloned entry;
       ELog Info "fetching Gitolite repo"; EEnqueueRepoUpdate (URI repo)]
        ++ trace (metadataStep C gconf entry entry w3))%list).
Proof.
  intros H He Hc Hd Hq. unfold reconcileEntry. run. rewrite H. cbn [negb].
  rewrite He. cbn [negb]. rewrite Hc. cbn [negb]. rewrite Hd, Hq.
  destruct (metadataStep C gconf entry entry w3) as [[u w4] t].
  cbn [world trace fst snd app]. now rewrite app_nil_r.
Qed.

Lemma enqueues_metadataStep gconf uri entry w :
  enqueues (trace (metadataStep C gconf uri entry w)) = [].
Proof.
  rewrite metadataStep_trace.
  destruct (negb (PhabricatorMetadataCommand gconf =? "")); reflexivity.
Qed.

Lemma lookups_metadataStep gconf uri entry w :
  lookups (trace (metadataStep C gconf uri entry w)) = [].
Proof.
  rewrite metadataStep_trace.
  destruct (negb (PhabricatorMetadataCommand gconf =? "")); reflexivity.
Qed.

(** C2: for a listed entry that resolves to an enabled repository and
    whose clone check answers [cloned], an update is enqueued (once, for
    the repository's name) if and only if the repository is not cloned
    or auto-updates are not disabled; the four rows of the table are
    spelled out. *)
Theorem enqueue_decision gconf entry w repo w1 cloned w2 :
  GetByURI C entry w = (Ok repo, w1) ->
  Enabled repo = true ->
  IsRepoCloned C entry w1 = (Ok cloned, w2) ->
  enqueues (trace (reconcileEntry C gconf entry w))
    = (if shouldEnqueue (DisableAutoGitUpdates (conf_Get C w2)) cloned
       then [URI repo] else [])
  /\ (In (URI repo) (enqueues (trace (reconcileEntry C gconf entry w)))
      <-> cloned = false \/ DisableAutoGitUpdates (conf_Get C w2) = false)
  /\ shouldEnqueue true false = true
  /\ shouldEnqueue true true = false
  /\ shouldEnqueue false false = true
  /\ shouldEnqueue false true = true.
Proof.
  intros H He Hc.
  assert (E : enqueues (trace (reconcileEntry C gconf entry w))
              = (if shouldEnqueue (DisableAutoGitUpdates (conf_Get C w2)) cloned
                 then [URI repo] else [])).
  { destruct (shouldEnqueue (DisableAutoGitUpdates (conf_Get C w2)) cloned) eqn:Hd.
    - destruct (EnqueueRepoUpdate C (URI repo) w2) as [[e|] w3] eqn:Hq.
      + rewrite (reconcileEntry_enqueue_failed gconf entry w repo w1 cloned w2 e w3)
          by assumption.
        reflexivity.
      + rewrite (reconcileEntry_enqueued gconf entry w repo w1 cloned w2 w3)
          by assumption.
        cbn [trace snd app enqueues]. now rewrite enqueues_metadataStep.
    - rewrite (reconcileEntry_not_enqueued gconf entry w repo w1 cloned w2)
        by assumption.
      cbn [trace snd app enqueues]. now rewrite enqueues_metadataStep. }
  split; [exact E|]. split; [|repeat split].
  rewrite E. unfold shouldEnqueue.
  destruct (DisableAutoGitUpdates (conf_Get C w2)), cloned; cbn; intuition congruence.
Qed.

(** C10: under a host configuration with a metadata command, for an
    entry that gets as far as the dispatch: when [EnqueueRepoUpdate]
    returns an error the iteration ends there and the metadata refresh
    is not called for the entry; when it succeeds the metadata refresh
    is called for it. *)
Theorem metadata_follows_dispatch gconf entry w repo w1 cloned w2 :
  PhabricatorMetadataCommand gconf <> "" ->
  GetByURI C entry w = (Ok repo, w1) ->
  Enabled repo = true ->
  IsRepoCloned C entry w1 = (Ok cloned, w2) ->
  shouldEnqueue (DisableAutoGitUpdates (conf_Get C w2)) cloned = true ->
  match fst (EnqueueRepoUpdate C (URI repo) w2) with
  | Some e =>
      value (reconcileEntry C gconf entry w) = EnqueueFailed e
      /\ metadataCalls (trace (reconcileEntry C gconf entry w)) = []
  | None =>
      value (reconcileEntry C gconf entry w) = Completed true
      /\ metadataCalls (trace (reconcileEntry C gconf entry w)) = [entry]
  end.
Proof.
  intros Hm H He Hc Hd.
  destruct (EnqueueRepoUpdate C (URI repo) w2) as [[e|] w3] eqn:Hq; cbn [fst].
  - rewrite (reconcileEntry_enqueue_failed gconf entry w repo w1 cloned w2 e w3)
      by assumption.
    split; reflexivity.
  - rewrite (reconcileEntry_enqueued gconf entry w repo w1 cloned w2 w3)
      by assumption.
    split; [reflexivity|].
    cbn [trace snd app metadataCalls]. rewrite metadataStep_trace.
    destruct (String.eqb_spec (PhabricatorMetadataCommand gconf) "") as [E|_];
      [contradiction | reflexivity].
Qed.

(** *** The loop over the entries *)

Lemma reconcileEntries_cons gconf entry rest w :
  reconcileEntries C gconf (entry :: rest) w
  = (value (reconcileEntry C gconf entry w)
       :: value (reconcileEntries C gconf rest
                   (world (reconcileEntry C gconf entry w))),
     world (reconcileEntries C gconf rest
              (world (reconcileEntry C gconf entry w))),
     (trace (reconcileEntry C gconf entry w)
        ++ trace (reconcileEntries C gconf rest
                    (world (reconcileEntry C gconf entry w))))%list).
Proof.
  cbn [reconcileEntries]. run.
  destruct (reconcileEntry C gconf entry w) as [[x w1] t1].
  cbn [value world trace fst snd].
  destruct (reconcileEntries C gconf rest w1) as [[xs w2] t2].
  cbn [value world trace fst snd]. now rewrite app_nil_r.
Qed.

Lemma lookups_app (t1 t2 : list Event) :
  lookups (t1 ++ t2) = (lookups t1 ++ lookups t2)%list.
Proof.
  induction t1 as [|e t1 IH]; [reflexivity|].
  destruct e; cbn [app lookups]; now rewrite IH.
Qed.

(** Whatever its exit, an iteration looks its entry up once. *)
Lemma lookups_reconcileEntry gconf entry w :
  lookups (trace (reconcileEntry C gconf entry w)) = [entry].
Proof.
  destruct (GetByURI C entry w) as [[repo|e] w1] eqn:H.
  2: { now rewrite (reconcileEntry_lookup_failed gconf entry w e w1). }
  destruct (Enabled repo) eqn:He.
  2: { now rewrite (reconcileEntry_not_enabled gconf entry w repo w1). }
  destruct (IsRepoCloned C entry w1) as [[cloned|e] w2] eqn:Hc.
  2: { now rewrite (reconcileEntry_clone_check_failed gconf entry w repo w1 e w2). }
  destruct (shouldEnqueue (DisableAutoGitUpdates (conf_Get C w2)) cloned) eqn:Hd.
  2: { rewrite (reconcileEntry_not_enqueued gconf entry w repo w1 cloned w2)
         by assumption.
       cbn [trace snd app lookups]. now rewrite lookups_metadataStep. }
  destruct (EnqueueRepoUpdate C (URI repo) w2) as [[e|] w3] eqn:Hq.
  - now rewrite (reconcileEntry_enqueue_failed gconf entry w repo w1 cloned w2 e w3).
  - rewrite (reconcileEntry_enqueued gconf entry w repo w1 cloned w2 w3)
      by assumption.
    cbn [trace snd app lookups]. now rewrite lookups_metadataStep.
Qed.

(** The loop looks every listed entry up once, in listing order. *)
Lemma lookups_reconcileEntries gconf (rlist : list string) : forall w,
  lookups (trace (reconcileEntries C gconf rlist w)) = rlist.
Proof.
  induction rlist as [|entry rest IH]; intros w; [reflexivity|].
  rewrite reconcileEntries_cons. cbn [trace snd].
  rewrite lookups_app, lookups_reconcileEntry, IH. reflexivity.
Qed.

(** The loop reaches an exit for every listed entry. *)
Lemma length_reconcileEntries gconf (rlist : list string) : forall w,
  List.length (value (reconcileEntries C gconf rlist w)) = List.length rlist.
Proof.
  induction rlist as [|entry rest IH]; intros w; [reflexivity|].
  rewrite reconcileEntries_cons. cbn [value fst List.length].
  now rewrite IH.
Qed.

(** The exit of the entry at index [i] is the exit of its own iteration,
    run in the world the iterations before it have left. *)
Lemma nth_reconcileEntries gconf (rlist : list string) : forall w i (entry : string),
  nth_error rlist i = Some entry ->
  nth_error (value (reconcileEntries C gconf rlist w)) i
  = Some (value (reconcileEntry C gconf entry
                   (world (reconcileEntries C gconf (firstn i rlist) w)))).
Proof.
  induction rlist as [|x rest IH]; intros w i entry Hi.
  - destruct i; discriminate Hi.
  - rewrite reconcileEntries_cons. destruct i as [|i].
    + injection Hi as ->. reflexivity.
    + cbn [nth_error] in Hi. cbn [firstn value fst nth_error].
      rewrite reconcileEntries_cons. cbn [world fst snd].
      apply IH. exact Hi.
Qed.

(** An iteration ends in a failure exactly when one of its own calls
    fails. *)
Lemma failed_reconcileEntry gconf entry w :
  failed (value (reconcileEntry C gconf entry w)) = negb (callsSucceed C entry w).
Proof.
  unfold callsSucceed.
  destruct (GetByURI C entry w) as [[repo|e] w1] eqn:H.
  2: { now rewrite (reconcileEntry_lookup_failed gconf entry w e w1). }
  destruct (Enabled repo) eqn:He.
  2: { now rewrite (reconcileEntry_not_enabled gconf entry w repo w1). }
  cbn [negb].
  destruct (IsRepoCloned C entry w1) as [[cloned|e] w2] eqn:Hc.
  2: { now rewrite (reconcileEntry_clone_check_failed gconf entry w repo w1 e w2). }
  destruct (shouldEnqueue (DisableAutoGitUpdates (conf_Get C w2)) cloned) eqn:Hd.
  2: { now rewrite (reconcileEntry_not_enqueued gconf entry w repo w1 cloned w2). }
  destruct (EnqueueRepoUpdate C (URI repo) w2) as [[e|] w3] eqn:Hq.
  - now rewrite (reconcileEntry_enqueue_failed gconf entry w repo w1 cloned w2 e w3).
  - now rewrite (reconcileEntry_enqueued gconf entry w repo w1 cloned w2 w3).
Qed.

(** The pass is its iterations, one after the other. *)
Lemma trace_reconcileEntries gconf (rlist : list string) : forall w,
  trace (reconcileEntries C gconf rlist w)
  = List.concat (entryTraces C gconf rlist w)
  /\ List.length (entryTraces C gconf rlist w) = List.length rlist.
Proof.
  induction rlist as [|entry rest IH]; intros w; [split; reflexivity|].
  rewrite reconcileEntries_cons. cbn [trace snd entryTraces List.concat List.length].
  destruct (IH (snd (fst (reconcileEntry C gconf entry w)))) as (IH1 & IH2).
  split; [|now rewrite IH2].
  f_equal. exact IH1.
Qed.

Lemma nth_entryTraces gconf (rlist : list string) : forall w i (entry : string),
  nth_error rlist i = Some entry ->
  nth_error (entryTraces C gconf rlist w) i
  = Some (trace (reconcileEntry C gconf entry
                   (world (reconcileEntries C gconf (firstn i rlist) w)))).
Proof.
  induction rlist as [|x rest IH]; intros w i entry Hi.
  - destruct i; discriminate Hi.
  - destruct i as [|i].
    + injection Hi as ->. reflexivity.
    + cbn [nth_error] in Hi. cbn [firstn entryTraces nth_error].
      rewrite reconcileEntries_cons. cbn [world fst snd].
      apply IH. exact Hi.
Qed.

(** What an iteration whose calls all succeed leaves in the trace: the
    lookup alone for a disabled repository; otherwise the lookup, the
    clone check, the dispatch where line 87 asks for one, and the metadata
    refresh where the host has a metadata command. *)
Lemma trace_of_processed gconf (entry : string) w :
  callsSucceed C entry w = true ->
  exists repo w1,
    GetByURI C entry w = (Ok repo, w1)
    /\ ((Enabled repo = false
         /\ trace (reconcileEntry C gconf entry w) = [EGetByURI entry])
        \/ (Enabled repo = true
            /\ exists cloned w2,
                 IsRepoCloned C entry w1 = (Ok cloned, w2)
                 /\ trace (reconcileEntry C gconf entry w)
                    = ([EGetByURI entry; EIsRepoCloned entry]
                         ++ (if shouldEnqueue (DisableAutoGitUpdates (conf_Get C w2)) cloned
                             then [ELog Info "fetching Gitolite repo";
                                   EEnqueueRepoUpdate (URI repo)]
                             else [])
                         ++ (if negb (PhabricatorMetadataCommand gconf =? "")
                             then [EPhabricatorMetadata gconf entry entry]
                             else []))%list)).
Proof.
  unfold callsSucceed.
  destruct (GetByURI C entry w) as [[repo|e] w1] eqn:H; [|discriminate].
  intros Hok. exists repo, w1. split; [reflexivity|].
  destruct (Enabled repo) eqn:He.
  2: { left. split; [reflexivity|].
       now rewrite (reconcileEntry_not_enabled gconf entry w repo w1). }
  right. split; [reflexivity|]. cbn [negb] in Hok.
  destruct (IsRepoCloned C entry w1) as [[cloned|e] w2] eqn:Hc; [|discriminate].
  exists cloned, w2. split; [reflexivity|].
  destruct (shouldEnqueue (DisableAutoGitUpdates (conf_Get C w2)) cloned) eqn:Hd.
  - destruct (EnqueueRepoUpdate C (URI repo) w2) as [[e|] w3] eqn:Hq; [discriminate|].
    rewrite (reconcileEntry_enqueued gconf entry w repo w1 cloned w2 w3)
      by assumption.
    cbn [trace snd app]. now rewrite metadataStep_trace.
  - rewrite (reconcileEntry_not_enqueued gconf entry w repo w1 cloned w2)
      by assumption.
    cbn [trace snd app]. now rewrite metadataStep_trace.
Qed.

(** An iteration that ends in a failure ends with a warning in the log. *)
Lemma failed_is_logged gconf (entry : string) w :
  failed (value (reconcileEntry C gconf entry w)) = true ->
  exists t msg,
    trace (reconcileEntry C gconf entry w) = (t ++ [ELog Warn msg])%list.
Proof.
  destruct (GetByURI C entry w) as [[repo|e] w1] eqn:H.
  2: { rewrite (reconcileEntry_lookup_failed gconf entry w e w1) by assumption.
       intros _. exists [EGetByURI entry]. eexists. reflexivity. }
  destruct (Enabled repo) eqn:He.
  2: { rewrite (reconcileEntry_not_enabled gconf entry w repo w1) by assumption.
       discriminate. }
  destruct (IsRepoCloned C entry w1) as [[cloned|e] w2] eqn:Hc.
  2: { rewrite (reconcileEntry_clone_check_failed gconf entry w repo w1 e w2)
         by assumption.
       intros _. exists [EGetByURI entry; EIsRepoCloned entry]. eexists.
       reflexivity. }
  destruct (shouldEnqueue (DisableAutoGitUpdates (conf_Get C w2)) cloned) eqn:Hd.
  2: { rewrite (reconcileEntry_not_enqueued gconf entry w repo w1 cloned w2)
         by assumption.
       discriminate. }
  destruct (EnqueueRepoUpdate C (URI repo) w2) as [[e|] w3] eqn:Hq.
  - rewrite (reconcileEntry_enqueue_failed gconf entry w repo w1 cloned w2 e w3)
      by assumption.
    intros _.
    exists [EGetByURI entry; EIsRepoCloned entry;
            ELog Info "fetching Gitolite repo"; EEnqueueRepoUpdate (URI repo)].
    eexists. reflexivity.
  - rewrite (reconcileEntry_enqueued gconf entry w repo w1 cloned w2 w3)
      by assumption.
    discriminate.
Qed.

(** C8: whatever happens to the entry at index [k] (a failed lookup,
    clone check or dispatch), the loop goes on: every listed entry is
    looked up and reaches an exit, and each other entry whose own calls
    succeed reaches an exit that is not a failure.  The trace of the pass
    is the traces of the iterations, one per listed entry and in listing
    order; the iteration of each such other entry is processed in full
    (its lookup alone when the repository is disabled; otherwise lookup,
    clone check, the dispatch where line 87 asks for one and the metadata
    refresh where the host has a command), and the iteration of the entry
    at [k], when it fails, ends with a warning in the log. *)
Theorem entry_failure_isolated gconf (rlist : list string) w (k : nat) :
  (forall i (entry : string), i <> k -> nth_error rlist i = Some entry ->
     callsSucceed C entry
       (world (reconcileEntries C gconf (firstn i rlist) w)) = true) ->
  List.length (value (reconcileEntries C gconf rlist w)) = List.length rlist
  /\ lookups (trace (reconcileEntries C gconf rlist w)) = rlist
  /\ (forall i (entry : string), i <> k -> nth_error rlist i = Some entry ->
        exists x,
          nth_error (value (reconcileEntries C gconf rlist w)) i = Some x
          /\ failed x = false)
  /\ trace (reconcileEntries C gconf rlist w)
     = List.concat (entryTraces C gconf rlist w)
  /\ List.length (entryTraces C gconf rlist w) = List.length rlist
  /\ (forall i (entry : string), i <> k -> nth_error rlist i = Some entry ->
        exists repo w1,
          GetByURI C entry (world (reconcileEntries C gconf (firstn i rlist) w))
            = (Ok repo, w1)
          /\ ((Enabled repo = false
               /\ nth_error (entryTraces C gconf rlist w) i = Some [EGetByURI entry])
              \/ (Enabled repo = true
                  /\ exists cloned w2,
                       IsRepoCloned C entry w1 = (Ok cloned, w2)
                       /\ nth_error (entryTraces C gconf rlist w) i
                          = Some
                              ([EGetByURI entry; EIsRepoCloned entry]
                                 ++ (if shouldEnqueue
                                          (DisableAutoGitUpdates (conf_Get C w2)) cloned
                                     then [ELog Info "fetching Gitolite repo";
                                           EEnqueueRepoUpdate (URI repo)]
                                     else [])
                                 ++ (if negb (PhabricatorMetadataCommand gconf =? "")
                                     then [EPhabricatorMetadata gconf entry entry]
                                     else []))%list)))
  /\ (forall (entry : string) x,
        nth_error rlist k = Some entry ->
        nth_error (value (reconcileEntries C gconf rlist w)) k = Some x ->
        failed x = true ->
        exists t msg,
          nth_error (entryTraces C gconf rlist w) k
          = Some (t ++ [ELog Warn msg])%list).
Proof.
  intros Hok. split; [apply length_reconcileEntries|].
  split; [apply lookups_reconcileEntries|].
  split.
  { intros i entry Hik Hi.
    eexists. split; [apply nth_reconcileEntries; exact Hi|].
    rewrite failed_reconcileEntry, (Hok i entry Hik Hi). reflexivity. }
  destruct (trace_reconcileEntries gconf rlist w) as (Hconcat & Hlen).
  split; [exact Hconcat|]. split; [exact Hlen|]. split.
  - intros i entry Hik Hi.
    rewrite (nth_entryTraces gconf rlist w i entry Hi).
    destruct (trace_of_processed gconf entry _ (Hok i entry Hik Hi))
      as (repo & w1 & Hget & Hcase).
    exists repo, w1. split; [exact Hget|].
    destruct Hcase as [(He & Ht)|(He & cloned & w2 & Hc & Ht)].
    + left. split; [exact He | now rewrite Ht].
    + right. split; [exact He|]. exists cloned, w2.
      split; [exact Hc | now rewrite Ht].
  - intros entry x Hk Hx Hfail.
    rewrite (nth_reconcileEntries gconf rlist w k entry Hk) in Hx.
    injection Hx as <-.
    rewrite (nth_entryTraces gconf rlist w k entry Hk).
    destruct (failed_is_logged gconf entry _ Hfail) as (t & msg & Ht).
    exists t, msg. now rewrite Ht.
Qed.

(** C9, as the code has it: the loop looks every listed entry up exactly
    once, in listing order; an entry whose lookup fails leaves its
    iteration at once, with the lookup and a warning as its only
    effects, and is not evaluated again in this pass. *)
Theorem failed_lookup_not_retried gconf (rlist : list string) w (i : nat)
    (entry : string) e w1 :
  nth_error rlist i = Some entry ->
  GetByURI C entry (world (reconcileEntries C gconf (firstn i rlist) w))
    = (Err e, w1) ->
  lookups (trace (reconcileEntries C gconf rlist w)) = rlist
  /\ nth_error (value (reconcileEntries C gconf rlist w)) i
     = Some (LookupFailed e)
  /\ reconcileEntry C gconf entry
       (world (reconcileEntries C gconf (firstn i rlist) w))
     = (LookupFailed e, w1,
        [EGetByURI entry; ELog Warn "Could not ensure repository updated"]).
Proof.
  intros Hi Hget.
  pose proof (reconcileEntry_lookup_failed gconf entry _ e w1 Hget) as Hexit.
  split; [apply lookups_reconcileEntries|]. split; [|exact Hexit].
  rewrite (nth_reconcileEntries gconf rlist w i entry Hi), Hexit.
  reflexivity.
Qed.

(** *** The loop over the hosts *)

Lemma syncHosts_app pre rest : forall w,
  syncHosts C (pre ++ rest) w
  = match syncHosts C pre w with
    | (Some e, w1, t1) => (Some e, w1, t1)
    | (None, w1, t1) =>
        (value (syncHosts C rest w1), world (syncHosts C rest w1),
         (t1 ++ trace (syncHosts C rest w1))%list)
    end.
Proof.
  induction pre as [|gconf pre IH]; intros w.
  - cbn [app syncHosts]. unfold ret.
    destruct (syncHosts C rest w) as [[r w1] t1]. reflexivity.
  - rewrite <- app_comm_cons. cbn [syncHosts]. run.
    destruct (ListGitolite C (Host gconf) w) as [[rlist|e] w1]; [|reflexivity].
    destruct (TryInsertNewBatch C (insertRepoOps rlist) w1) as [err w2].
    destruct err as [e0|];
      destruct (reconcileEntries C gconf rlist w2) as [[xs w4] t4];
      rewrite IH;
      destruct (syncHosts C pre w4) as [[[e|] w5] t5];
      cbn [value world trace fst snd app];
      try reflexivity;
      destruct (syncHosts C rest w5) as [[r w6] t6]; cbn [fst snd];
      now rewrite !app_assoc.
Qed.

(** C1, as the code has it: when the listing of a configured host fails,
    the handler returns that error at once.  Nothing is registered for
    the host, no host configured after it is listed or processed, and
    the response is not written; the hosts before it have been
    processed. *)
Theorem listing_failure_ends_sync w pre gconf rest w1 t1 e w2 :
  Gitolite (conf_Get C w) = (pre ++ gconf :: rest)%list ->
  syncHosts C pre w = (None, w1, t1) ->
  ListGitolite C (Host gconf) w1 = (Err e, w2) ->
  serveGitoliteUpdateReposDeprecated C w
  = (Some e, w2,
     (ELog Debug "serveGitoliteUpdateRepos" :: t1
        ++ [EListGitolite (Host gconf)])%list).
Proof.
  intros Hconf Hpre Hlist.
  assert (Hsync : syncHosts C (pre ++ gconf :: rest) w
                  = (Some e, w2, (t1 ++ [EListGitolite (Host gconf)])%list)).
  { rewrite syncHosts_app, Hpre. cbn [syncHosts]. run. rewrite Hlist.
    reflexivity. }
  unfold serveGitoliteUpdateReposDeprecated. run.
  rewrite Hconf, Hsync. cbn [app]. now rewrite app_nil_r.
Qed.

End Facts.

Lemma enqueue_decision_witness :
  GetByURI Sim.collaborators "a" Sim.mixed = (Ok (mkRepo "a" true), Sim.mixed)
  /\ IsRepoCloned Sim.collaborators "a" Sim.mixed = (Ok true, Sim.mixed)
  /\ DisableAutoGitUpdates (conf_Get Sim.collaborators Sim.mixed) = true
  /\ enqueues (trace (reconcileEntry Sim.collaborators Sim.gitExample "a" Sim.mixed))
     = [].
Proof.
  assert (H1 : GetByURI Sim.collaborators "a" Sim.mixed
               = (Ok (mkRepo "a" true), Sim.mixed)) by reflexivity.
  assert (H2 : Enabled (mkRepo "a" true) = true) by reflexivity.
  assert (H3 : IsRepoCloned Sim.collaborators "a" Sim.mixed
               = (Ok true, Sim.mixed)) by reflexivity.
  split; [exact H1|]. split; [exact H3|]. split; [reflexivity|].
  exact (proj1 (enqueue_decision Sim.collaborators Sim.gitExample "a"
                  Sim.mixed (mkRepo "a" true) Sim.mixed true Sim.mixed
                  H1 H2 H3)).
Defined.

Lemma metadata_follows_dispatch_witness :
  PhabricatorMetadataCommand Sim.gitExample <> ""
  /\ EnqueueRepoUpdate Sim.collaborators "e" Sim.mixed
     = (Some "repo-updater unavailable", Sim.mixed)
  /\ value (reconcileEntry Sim.collaborators Sim.gitExample "e" Sim.mixed)
     = EnqueueFailed "repo-updater unavailable"
  /\ metadataCalls (trace (reconcileEntry Sim.collaborators Sim.gitExample "e" Sim.mixed))
     = [].
Proof.
  assert (H0 : PhabricatorMetadataCommand Sim.gitExample <> "") by discriminate.
  assert (H1 : GetByURI Sim.collaborators "e" Sim.mixed
               = (Ok (mkRepo "e" true), Sim.mixed)) by reflexivity.
  assert (H2 : Enabled (mkRepo "e" true) = true) by reflexivity.
  assert (H3 : IsRepoCloned Sim.collaborators "e" Sim.mixed
               = (Ok false, Sim.mixed)) by reflexivity.
  assert (H4 : shouldEnqueue
                 (DisableAutoGitUpdates (conf_Get Sim.collaborators Sim.mixed))
                 false = true) by reflexivity.
  split; [exact H0|]. split; [reflexivity|].
  exact (metadata_follows_dispatch Sim.collaborators Sim.gitExample "e"
           Sim.mixed (mkRepo "e" true) Sim.mixed false Sim.mixed
           H0 H1 H2 H3 H4).
Defined.

Lemma entry_failure_isolated_witness :
  value (reconcileEntries Sim.collaborators Sim.gitExample ["a"; "b"; "d"; "f"] Sim.mixed)
    = [Completed false; CloneCheckFailed "gitserver unavailable"; NotEnabled;
       Completed true]
  /\ entryTraces Sim.collaborators Sim.gitExample ["a"; "b"; "d"; "f"] Sim.mixed
     = [[EGetByURI "a"; EIsRepoCloned "a";
         EPhabricatorMetadata Sim.gitExample "a" "a"];
        [EGetByURI "b"; EIsRepoCloned "b";
         ELog Warn "Could not ensure repository cloned"];
        [EGetByURI "d"];
        [EGetByURI "f"; EIsRepoCloned "f"; ELog Info "fetching Gitolite repo";
         EEnqueueRepoUpdate "f"; EPhabricatorMetadata Sim.gitExample "f" "f"]]
  /\ trace (reconcileEntries Sim.collaborators Sim.gitExample
              ["a"; "b"; "d"; "f"] Sim.mixed)
     = List.concat
         (entryTraces Sim.collaborators Sim.gitExample ["a"; "b"; "d"; "f"] Sim.mixed).
Proof.
  split; [reflexivity|]. split; [reflexivity|].
  refine (proj1 (proj2 (proj2 (proj2
            (entry_failure_isolated Sim.collaborators Sim.gitExample
               ["a"; "b"; "d"; "f"] Sim.mixed 1 _))))).
  intros i entry Hi Hnth.
  destruct i as [|[|[|[|i]]]].
  - injection Hnth as <-. reflexivity.
  - contradiction.
  - injection Hnth as <-. reflexivity.
  - injection Hnth as <-. reflexivity.
  - destruct i; discriminate Hnth.
Defined.

Lemma failed_lookup_not_retried_witness :
  nth_error ["a"; "b"; "c"] 2 = Some "c"
  /\ value (reconcileEntries Sim.collaborators Sim.gitExample ["a"; "b"; "c"]
              Sim.abcRegistered)
     = [Completed true; Completed true; LookupFailed "repo not found"]
  /\ lookups (trace (reconcileEntries Sim.collaborators Sim.gitExample
                       ["a"; "b"; "c"] Sim.abcRegistered))
     = ["a"; "b"; "c"].
Proof.
  assert (H1 : nth_error ["a"; "b"; "c"] 2 = Some "c") by reflexivity.
  split; [exact H1|]. split; [reflexivity|].
  refine (proj1 (failed_lookup_not_retried Sim.collaborators Sim.gitExample
                   ["a"; "b"; "c"] Sim.abcRegistered 2 "c" "repo not found"
                   _ H1 _)).
  reflexivity.
Defined.

Lemma listing_failure_ends_sync_witness :
  Gitolite (conf_Get Sim.collaborators Sim.secondDown)
    = [mkGitoliteConnection "git.example.com" ""; Sim.downExample;
       mkGitoliteConnection "git2.example.com" ""]
  /\ ListGitolite Sim.collaborators "down.example.com" Sim.secondDown
     = (Err "gitolite host unreachable", Sim.secondDown)
  /\ serveGitoliteUpdateReposDeprecated Sim.collaborators Sim.secondDown
     = (Some "gitolite host unreachable", Sim.secondDown,
        [ELog Debug "serveGitoliteUpdateRepos";
         EListGitolite "git.example.com";
         ETryInsertNewBatch [mkInsertRepoOp "a" true];
         EGetByURI "a"; EIsRepoCloned "a";
         ELog Info "fetching Gitolite repo"; EEnqueueRepoUpdate "a";
         EListGitolite "down.example.com"]).
Proof.
  assert (H1 : Gitolite (conf_Get Sim.collaborators Sim.secondDown)
               = ([mkGitoliteConnection "git.example.com" ""]
                    ++ Sim.downExample
                    :: [mkGitoliteConnection "git2.example.com" ""])%list)
    by reflexivity.
  assert (H2 : syncHosts Sim.collaborators
                 [mkGitoliteConnection "git.example.com" ""] Sim.secondDown
               = (None, Sim.secondDown,
                  [EListGitolite "git.example.com";
                   ETryInsertNewBatch [mkInsertRepoOp "a" true];
                   EGetByURI "a"; EIsRepoCloned "a";
                   ELog Info "fetching Gitolite repo"; EEnqueueRepoUpdate "a"]))
    by reflexivity.
  assert (H3 : ListGitolite Sim.collaborators (Host Sim.downExample) Sim.secondDown
               = (Err "gitolite host unreachable", Sim.secondDown))
    by reflexivity.
  split; [exact H1|]. split; [exact H3|].
  exact (listing_failure_ends_sync Sim.collaborators Sim.secondDown _ _ _ _ _ _ _
           H1 H2 H3).
Defined.

(** C1, as stated, fails: with a first host that cannot be listed and a
    second one that can, the handler returns the error of the first and
    never lists the second. *)
Lemma remaining_host_not_processed :
  Gitolite (conf_Get Sim.collaborators Sim.twoHosts)
    = [Sim.downExample; mkGitoliteConnection "git.example.com" ""]
  /\ ListGitolite Sim.collaborators "git.example.com" Sim.twoHosts
     = (Ok ["a"; "b"], Sim.twoHosts)
  /\ serveGitoliteUpdateReposDeprecated Sim.collaborators Sim.twoHosts
     = (Some "gitolite host unreachable", Sim.twoHosts,
        [ELog Debug "serveGitoliteUpdateRepos";
         EListGitolite "down.example.com"])
  /\ listings (trace (serveGitoliteUpdateReposDeprecated
                        Sim.collaborators Sim.twoHosts))
     = ["down.example.com"].
Proof. repeat split. Qed.

(** C9, as stated, fails: in the scenario of the three listed names, [c]
    is registered by the batch insert and its lookup fails right after;
    the pass looks it up that one time, enqueues nothing for it and ends,
    although a lookup of [c] would succeed by then. *)
Lemma registered_entry_not_reevaluated :
  trace (serveGitoliteUpdateReposDeprecated Sim.collaborators Sim.abc)
    = [ELog Debug "serveGitoliteUpdateRepos";
       EListGitolite "git.example.com";
       ETryInsertNewBatch
         [mkInsertRepoOp "a" true; mkInsertRepoOp "b" true; mkInsertRepoOp "c" true];
       EGetByURI "a"; EIsRepoCloned "a";
       ELog Info "fetching Gitolite repo"; EEnqueueRepoUpdate "a";
       EGetByURI "b"; EIsRepoCloned "b";
       ELog Info "fetching Gitolite repo"; EEnqueueRepoUpdate "b";
       EGetByURI "c"; ELog Warn "Could not ensure repository updated";
       EWriteHeader 204; EWrite "OK"]
  /\ lookups (trace (serveGitoliteUpdateReposDeprecated Sim.collaborators Sim.abc))
     = ["a"; "b"; "c"]
  /\ enqueues (trace (serveGitoliteUpdateReposDeprecated Sim.collaborators Sim.abc))
     = ["a"; "b"]
  /\ fst (GetByURI Sim.collaborators "c"
            (world (serveGitoliteUpdateReposDeprecated Sim.collaborators Sim.abc)))
     = Ok (mkRepo "c" true).
Proof. repeat split. Qed.

End Sync.

(** ** More on the pkt-line encoder *)

Module PktLineFacts.
Import strconv GoString GoStringFacts strconvFacts PktLine.

Lemma append_inv_head (a p q : string) : a ++ p = a ++ q -> p = q.
Proof.
  induction a as [|c a IH]; simpl; intros H; [exact H|].
  injection H as H. apply IH. exact H.
Qed.

Lemma length_prefixOf (payload : string) :
  String.length (prefixOf payload)
  = (padding (String.length (FormatInt (len payload + 4) 16))
     + String.length (FormatInt (len payload + 4) 16))%nat.
Proof.
  unfold prefixOf. rewrite length_append, length_Repeat.
  change (String.length "0") with 1%nat. lia.
Qed.

Lemma bound64 (payload : string) :
  (len payload + 4 < 2 ^ 63)%Z -> (0 <= len payload + 4 < 2 ^ 64)%Z.
Proof.
  intros H. pose proof (Nat2Z.is_nonneg (String.length payload)) as H0.
  fold (len payload) in H0. split; [lia|].
  apply Z.lt_trans with (2 ^ 63)%Z; [exact H | reflexivity].
Qed.

(** A longer payload never has a shorter prefix. *)
Lemma prefixOf_monotone (p q : string) :
  (len q + 4 < 2 ^ 63)%Z ->
  (len p <= len q)%Z ->
  (String.length (prefixOf p) <= String.length (prefixOf q))%nat.
Proof.
  intros Hq Hpq.
  assert (Hp : (len p + 4 < 2 ^ 63)%Z) by lia.
  destruct (FormatInt_hex _ (bound64 p Hp)) as (_ & _ & Hp1 & Hpup & _).
  destruct (FormatInt_hex _ (bound64 q Hq)) as (_ & _ & Hq1 & _ & Hqlow).
  rewrite !length_prefixOf.
  set (dp := String.length (FormatInt (len p + 4) 16)) in *.
  set (dq := String.length (FormatInt (len q + 4) 16)) in *.
  assert (Hd : (dp <= dq)%nat).
  { apply Hpup; [|exact Hq1].
    destruct (Z_lt_le_dec (len p + 4) (16 ^ Z.of_nat dq)) as [Hlt|Hge]; [exact Hlt|].
    exfalso. assert (dq < dq)%nat; [|lia]. apply Hqlow. lia. }
  pose proof (padding_spec dp) as (Hmp & Hbp).
  pose proof (padding_spec dq) as (Hmq & Hbq).
  pose proof (Nat.div_mod_eq (padding dp + dp) 4) as Ep.
  pose proof (Nat.div_mod_eq (padding dq + dq) 4) as Eq.
  rewrite Hmp in Ep. rewrite Hmq in Eq. lia.
Qed.

(** X1: no payload is framed as the flush frame ["0000"]. *)
Theorem packetWrite_not_flush (payload : string) :
  (len payload + 4 < 2 ^ 63)%Z ->
  packetWrite payload <> "0000".
Proof.
  intros Hmax Heq.
  destruct payload as [|c rest]; [discriminate Heq|].
  assert (Hlen : String.length (packetWrite (String c rest)) = 4%nat)
    by (rewrite Heq; reflexivity).
  rewrite (packetWrite_shape _ Hmax), length_append in Hlen.
  destruct (padded_prefix _ (bound64 _ Hmax)) as (_ & _ & _ & Hge).
  cbn [String.length] in Hlen. lia.
Qed.

Lemma packetWrite_not_flush_witness :
  (len serviceLine + 4 < 2 ^ 63)%Z /\ packetWrite serviceLine <> "0000".
Proof.
  assert (H : (len serviceLine + 4 < 2 ^ 63)%Z) by (vm_compute; reflexivity).
  split; [exact H | exact (packetWrite_not_flush serviceLine H)].
Defined.

(** X2: the framing is injective: two payloads with the same frame are the
    same payload. *)
Theorem packetWrite_injective (p q : string) :
  (len p + 4 < 2 ^ 63)%Z ->
  (len q + 4 < 2 ^ 63)%Z ->
  packetWrite p = packetWrite q ->
  p = q.
Proof.
  intros Hp Hq Heq.
  rewrite (packetWrite_shape p Hp), (packetWrite_shape q Hq) in Heq.
  fold (prefixOf p) in Heq. fold (prefixOf q) in Heq.
  assert (Hlen : (String.length (prefixOf p) + String.length p
                  = String.length (prefixOf q) + String.length q)%nat).
  { rewrite <- !length_append, Heq. reflexivity. }
  assert (Hsame : len p = len q).
  { unfold len in *.
    destruct (Z.lt_trichotomy (Z.of_nat (String.length p)) (Z.of_nat (String.length q)))
      as [Hlt|[E|Hgt]]; [|exact E|].
    - pose proof (prefixOf_monotone p q Hq) as Hm. unfold len in Hm. lia.
    - pose proof (prefixOf_monotone q p Hp) as Hm. unfold len in Hm. lia. }
  unfold prefixOf in Heq. rewrite Hsame in Heq.
  exact (append_inv_head _ _ _ Heq).
Qed.

Lemma packetWrite_injective_witness :
  packetWrite "want" = packetWrite "want" /\ "want" = "want".
Proof.
  split; [reflexivity|].
  refine (packetWrite_injective "want" "want" _ _ eq_refl); vm_compute; reflexivity.
Defined.

End PktLineFacts.

(** ** More on the bridge and on the sync handler *)

Module HandlerFacts.
Import Sync.

Section Facts.

Context {W : Type} (C : Collaborators W).

(** X3: the ref advertisement touches the response only when it succeeds.
    Whatever the request and the world, either it returns an error and no
    header, status or body byte has been written, or it returns none, and
    then the repository resolved, is enabled, the backend answered the
    advertise-refs command with [refs], and the body is the frame
    ["001e# service=git-upload-pack\n"], the flush frame and those [refs],
    under the advertisement media type. *)
Theorem serveGitInfoRefs_response (service : string) (uri : RepoURI) (w : W) :
  match value (serveGitInfoRefs C service uri w) with
  | Some _ => responseOps (trace (serveGitInfoRefs C service uri w)) = []
  | None =>
      exists repo w1 refs w2,
        service = "git-upload-pack"
        /\ GetByURI C uri w = (Ok repo, w1)
        /\ Enabled repo = true
        /\ CommandOutput C (URI repo) advertiseArgs w1 = (Ok refs, w2)
        /\ body (trace (serveGitInfoRefs C service uri w))
           = "001e# service=git-upload-pack" ++ GoString.LF ++ "0000" ++ refs
        /\ contentType (trace (serveGitInfoRefs C service uri w))
           = Some "application/x-git-upload-pack-advertisement"
  end.
Proof.
  destruct (String.eqb_spec service "git-upload-pack") as [->|Hs].
  2: { unfold serveGitInfoRefs.
       destruct (String.eqb_spec service "git-upload-pack") as [E|_];
         [contradiction | reflexivity]. }
  destruct (GetByURI C uri w) as [[repo|e] w1] eqn:Hget.
  2: { unfold serveGitInfoRefs.
       change ("git-upload-pack" =? "git-upload-pack") with true. cbn [negb].
       unfold bind, call, ret. rewrite Hget. reflexivity. }
  destruct (Enabled repo) eqn:Hen.
  2: { unfold serveGitInfoRefs.
       change ("git-upload-pack" =? "git-upload-pack") with true. cbn [negb].
       unfold bind, call, ret. rewrite Hget. cbn [negb]. rewrite Hen. reflexivity. }
  destruct (CommandOutput C (URI repo) advertiseArgs w1) as [[refs|e] w2] eqn:Hout.
  2: { unfold serveGitInfoRefs.
       change ("git-upload-pack" =? "git-upload-pack") with true. cbn [negb].
       unfold bind, call, ret. rewrite Hget. cbn [negb]. rewrite Hen. cbn [negb].
       rewrite Hout. reflexivity. }
  rewrite (Bridge.serveGitInfoRefs_ok C uri w w1 w2 repo refs Hget Hen Hout).
  cbn [value fst]. exists repo, w1, refs, w2.
  split; [reflexivity|]. split; [first [reflexivity | exact Hget]|].
  split; [first [reflexivity | exact Hen]|].
  split; [first [reflexivity | exact Hout]|].
  split; [|reflexivity].
  cbn [trace snd body].
  change (packetWrite serviceLine)
    with ("001e# service=git-upload-pack" ++ GoString.LF).
  now rewrite GoStringFacts.append_nil_r, GoStringFacts.append_assoc.
Qed.

(** *** What an iteration of the sync loop leaves in the trace *)

(** The six ways through [reconcileEntry], each with its equation. *)
Ltac entry_cases gconf entry w :=
  let repo := fresh "repo" in
  let e := fresh "e" in
  let w1 := fresh "w1" in
  let w2 := fresh "w2" in
  let w3 := fresh "w3" in
  let cloned := fresh "cloned" in
  let Hg := fresh "Hget" in
  let He := fresh "Hen" in
  let Hc := fresh "Hcl" in
  let Hd := fresh "Hdec" in
  let Hq := fresh "Henq" in
  destruct (GetByURI C entry w) as [[repo|e] w1] eqn:Hg;
  [ destruct (Enabled repo) eqn:He;
    [ destruct (IsRepoCloned C entry w1) as [[cloned|e] w2] eqn:Hc;
      [ destruct (shouldEnqueue (DisableAutoGitUpdates (conf_Get C w2)) cloned) eqn:Hd;
        [ destruct (EnqueueRepoUpdate C (URI repo) w2) as [[e|] w3] eqn:Hq;
          [ rewrite (reconcileEntry_enqueue_failed C gconf entry w repo w1 cloned w2 e w3 Hg He Hc Hd Hq)
          | rewrite (reconcileEntry_enqueued C gconf entry w repo w1 cloned w2 w3 Hg He Hc Hd Hq) ]
        | rewrite (reconcileEntry_not_enqueued C gconf entry w repo w1 cloned w2 Hg He Hc Hd) ]
      | rewrite (reconcileEntry_clone_check_failed C gconf entry w repo w1 e w2 Hg He Hc) ]
    | rewrite (reconcileEntry_not_enabled C gconf entry w repo w1 Hg He) ]
  | rewrite (reconcileEntry_lookup_failed C gconf entry w e w1 Hg) ].

Lemma responseOps_app (t1 t2 : list Event) :
  responseOps (t1 ++ t2) = (responseOps t1 ++ responseOps t2)%list.
Proof.
  induction t1 as [|e t1 IH]; [reflexivity|].
  destruct e; cbn [app responseOps]; now rewrite IH.
Qed.

Lemma listings_app (t1 t2 : list Event) :
  listings (t1 ++ t2) = (listings t1 ++ listings t2)%list.
Proof.
  induction t1 as [|e t1 IH]; [reflexivity|].
  destruct e; cbn [app listings]; now rewrite IH.
Qed.

Lemma enqueues_app (t1 t2 : list Event) :
  enqueues (t1 ++ t2) = (enqueues t1 ++ enqueues t2)%list.
Proof.
  induction t1 as [|e t1 IH]; [reflexivity|].
  destruct e; cbn [app enqueues]; now rewrite IH.
Qed.

Lemma metadataCalls_app (t1 t2 : list Event) :
  metadataCalls (t1 ++ t2) = (metadataCalls t1 ++ metadataCalls t2)%list.
Proof.
  induction t1 as [|e t1 IH]; [reflexivity|].
  destruct e; cbn [app metadataCalls]; now rewrite IH.
Qed.

Lemma quiet_metadataStep gconf uri entry w :
  responseOps (trace (metadataStep C gconf uri entry w)) = []
  /\ listings (trace (metadataStep C gconf uri entry w)) = [].
Proof.
  rewrite metadataStep_trace.
  destruct (negb (PhabricatorMetadataCommand gconf =? "")); split; reflexivity.
Qed.

Lemma quiet_reconcileEntry gconf entry w :
  responseOps (trace (reconcileEntry C gconf entry w)) = []
  /\ listings (trace (reconcileEntry C gconf entry w)) = [].
Proof.
  pose proof (quiet_metadataStep gconf entry entry) as Hm.
  entry_cases gconf entry w; cbn [trace snd];
    rewrite ?responseOps_app, ?listings_app;
    cbn [responseOps listings app];
    try (split; reflexivity).
  - destruct (Hm w3) as (-> & ->). split; reflexivity.
  - destruct (Hm w2) as (-> & ->). split; reflexivity.
Qed.

Lemma quiet_reconcileEntries gconf (rlist : list string) : forall w,
  responseOps (trace (reconcileEntries C gconf rlist w)) = []
  /\ listings (trace (reconcileEntries C gconf rlist w)) = [].
Proof.
  induction rlist as [|entry rest IH]; intros w; [split; reflexivity|].
  rewrite reconcileEntries_cons. cbn [trace snd].
  rewrite responseOps_app, listings_app.
  destruct (quiet_reconcileEntry gconf entry w) as (-> & ->).
  destruct (IH (world (reconcileEntry C gconf entry w))) as (-> & ->).
  split; reflexivity.
Qed.

(** One round of the host loop whose listing succeeds. *)
Lemma syncHosts_listed gconf rest w rlist w1 :
  ListGitolite C (Host gconf) w = (Ok rlist, w1) ->
  exists (warn : list Event) w3,
    (warn = [] \/ warn = [ELog Warn "TryInsertNewBatch failed"])
    /\ w3 = snd (TryInsertNewBatch C (insertRepoOps rlist) w1)
    /\ syncHosts C (gconf :: rest) w
       = (value (syncHosts C rest (world (reconcileEntries C gconf rlist w3))),
          world (syncHosts C rest (world (reconcileEntries C gconf rlist w3))),
          (EListGitolite (Host gconf)
             :: ETryInsertNewBatch (insertRepoOps rlist)
             :: warn
             ++ trace (reconcileEntries C gconf rlist w3)
             ++ trace (syncHosts C rest (world (reconcileEntries C gconf rlist w3))))%list).
Proof.
  intros Hl. cbn [syncHosts]. unfold bind, call, emit, ret. rewrite Hl.
  destruct (TryInsertNewBatch C (insertRepoOps rlist) w1) as [[e0|] w2];
    [exists [ELog Warn "TryInsertNewBatch failed"], w2
    | exists [], w2];
    (split; [auto|]); (split; [reflexivity|]);
    cbn [snd];
    destruct (reconcileEntries C gconf rlist w2) as [[xs w4] t4];
    cbn [world fst snd];
    destruct (syncHosts C rest w4) as [[r w5] t5]; reflexivity.
Qed.

Lemma syncHosts_not_listed gconf rest w e w1 :
  ListGitolite C (Host gconf) w = (Err e, w1) ->
  syncHosts C (gconf :: rest) w = (Some e, w1, [EListGitolite (Host gconf)]).
Proof.
  intros Hl. cbn [syncHosts]. unfold bind, call, ret. rewrite Hl. reflexivity.
Qed.

(** The host loop never touches the response, and it lists the
    configured hosts in order, stopping at the first that fails. *)
Lemma syncHosts_shape (gconfs : list GitoliteConnection) : forall w,
  responseOps (trace (syncHosts C gconfs w)) = []
  /\ (exists rest, map Host gconfs = (listings (trace (syncHosts C gconfs w)) ++ rest)%list)
  /\ (value (syncHosts C gconfs w) = None ->
      listings (trace (syncHosts C gconfs w)) = map Host gconfs).
Proof.
  induction gconfs as [|gconf rest IH]; intros w.
  - cbn. split; [reflexivity|]. split; [exists []; reflexivity | reflexivity].
  - destruct (ListGitolite C (Host gconf) w) as [[rlist|e] w1] eqn:Hl.
    + destruct (syncHosts_listed gconf rest w rlist w1 Hl) as (warn & w3 & Hw & _ & ->).
      cbn [trace value fst snd].
      destruct (quiet_reconcileEntries gconf rlist w3) as (Hr1 & Hr2).
      destruct (IH (world (reconcileEntries C gconf rlist w3))) as (IH1 & (tl & IH2) & IH3).
      assert (Hwarn : responseOps warn = [] /\ listings warn = [])
        by (destruct Hw as [->| ->]; split; reflexivity).
      destruct Hwarn as (Hw1 & Hw2).
      cbn [responseOps listings map].
      rewrite !responseOps_app, !listings_app, Hr1, Hr2, Hw1, Hw2, IH1.
      cbn [app]. split; [reflexivity|]. split.
      * exists tl. now rewrite IH2.
      * intros Hv. now rewrite (IH3 Hv).
    + rewrite (syncHosts_not_listed gconf rest w e w1 Hl).
      cbn [trace value fst snd responseOps listings map].
      split; [reflexivity|]. split; [|discriminate].
      exists (map Host rest). reflexivity.
Qed.

(** An error of the host loop is the error of a listing: the hosts before
    it were gone through without an error, whatever their registrations
    and entries did, and the failed listing is the last call made. *)
Lemma syncHosts_error (gconfs : list GitoliteConnection) : forall w e,
  value (syncHosts C gconfs w) = Some e ->
  exists pre gconf rest w2,
    gconfs = (pre ++ gconf :: rest)%list
    /\ value (syncHosts C pre w) = None
    /\ ListGitolite C (Host gconf) (world (syncHosts C pre w)) = (Err e, w2)
    /\ world (syncHosts C gconfs w) = w2
    /\ listings (trace (syncHosts C gconfs w)) = (map Host pre ++ [Host gconf])%list.
Proof.
  induction gconfs as [|g0 l IH]; intros w e Hv; [discriminate Hv|].
  destruct (ListGitolite C (Host g0) w) as [[rlist|e0] w1] eqn:Hl.
  - destruct (syncHosts_listed g0 l w rlist w1 Hl) as (warn & w3 & Hw & Hw3 & Heq).
    subst w3.
    rewrite Heq in Hv |- *. cbn [value world trace fst snd] in Hv |- *.
    destruct (IH _ _ Hv) as (pre & gconf & rest & w2 & Hsplit & Hpre & Hfail & Hworld & Hlist).
    destruct (syncHosts_listed g0 pre w rlist w1 Hl) as (warn' & w3' & _ & Hw3' & Heq').
    subst w3'.
    set (w3 := snd (TryInsertNewBatch C (insertRepoOps rlist) w1)) in *.
    exists (g0 :: pre), gconf, rest, w2.
    rewrite Heq'. cbn [value world fst snd].
    split; [now rewrite Hsplit|]. split; [exact Hpre|]. split; [exact Hfail|].
    split; [exact Hworld|].
    destruct (quiet_reconcileEntries g0 rlist w3) as (_ & Hr).
    assert (Hwarn : listings warn = []) by (destruct Hw as [->| ->]; reflexivity).
    cbn [listings map app]. rewrite !listings_app, Hwarn, Hr, Hlist. reflexivity.
  - rewrite (syncHosts_not_listed g0 l w e0 w1 Hl) in Hv |- *.
    cbn [value fst] in Hv. injection Hv as ->.
    exists [], g0, l, w1. cbn. rewrite Hl. repeat split.
Qed.

(** X4: the sync handler answers [204] with the body ["OK"] exactly when it
    returns no error, and then every configured host has been listed, in
    configuration order.  An error it returns is always the error of a
    failed host listing, never one of a batch registration or of a single
    entry: the hosts configured before the failing one were gone through
    without an error, the failed listing is the last host listed, and
    nothing has been written to the response. *)
Theorem sync_response (w : W) :
  match value (serveGitoliteUpdateReposDeprecated C w) with
  | None =>
      responseOps (trace (serveGitoliteUpdateReposDeprecated C w))
        = [EWriteHeader 204; EWrite "OK"]
      /\ listings (trace (serveGitoliteUpdateReposDeprecated C w))
         = map Host (Gitolite (conf_Get C w))
  | Some e =>
      responseOps (trace (serveGitoliteUpdateReposDeprecated C w)) = []
      /\ (exists rest,
            map Host (Gitolite (conf_Get C w))
            = (listings (trace (serveGitoliteUpdateReposDeprecated C w)) ++ rest)%list)
      /\ exists pre gconf rest w2,
           Gitolite (conf_Get C w) = (pre ++ gconf :: rest)%list
           /\ value (syncHosts C pre w) = None
           /\ ListGitolite C (Host gconf) (world (syncHosts C pre w)) = (Err e, w2)
           /\ world (serveGitoliteUpdateReposDeprecated C w) = w2
           /\ listings (trace (serveGitoliteUpdateReposDeprecated C w))
              = (map Host pre ++ [Host gconf])%list
  end.
Proof.
  destruct (syncHosts_shape (Gitolite (conf_Get C w)) w) as (H1 & (tl & H2) & H3).
  pose proof (syncHosts_error (Gitolite (conf_Get C w)) w) as H4.
  unfold serveGitoliteUpdateReposDeprecated, bind, emit, ask, ret.
  destruct (syncHosts C (Gitolite (conf_Get C w)) w) as [[[e|] w1] t1];
    cbn [trace value world fst snd] in *;
    cbn [trace value world fst snd app responseOps listings].
  - rewrite app_nil_r, H1. split; [reflexivity|].
    split; [exists tl; exact H2|].
    destruct (H4 e eq_refl) as (pre & gconf & rest & w2 & Hs & Hp & Hf & Hw & Hl).
    exists pre, gconf, rest, w2. repeat split; assumption.
  - rewrite responseOps_app, listings_app, H1. cbn [responseOps listings app].
    rewrite app_nil_r. split; [reflexivity|]. apply H3. reflexivity.
Qed.


(** X6: an update is enqueued only for a listed name that resolves to an
    enabled repository whose clone check succeeded, and under that
    repository's name: never for a name that does not resolve, for a
    disabled repository or after a failed clone check. *)
Theorem enqueue_only_enabled gconf (entry : string) w (name : RepoURI) :
  In name (enqueues (trace (reconcileEntry C gconf entry w))) ->
  exists repo w1 cloned w2,
    GetByURI C entry w = (Ok repo, w1)
    /\ Enabled repo = true
    /\ IsRepoCloned C entry w1 = (Ok cloned, w2)
    /\ shouldEnqueue (DisableAutoGitUpdates (conf_Get C w2)) cloned = true
    /\ name = URI repo.
Proof.
  pose proof (enqueues_metadataStep C gconf entry entry) as Hm.
  entry_cases gconf entry w; cbn [trace snd];
    rewrite ?enqueues_app, ?Hm; cbn [enqueues app In]; intros Hin;
    try contradiction.
  - destruct Hin as [<-|[]]. exists repo, w1, cloned, w2. repeat split; assumption.
  - destruct Hin as [<-|[]]. exists repo, w1, cloned, w2. repeat split; assumption.
Qed.

Lemma enqueues_reconcileEntry_le gconf (entry : string) w :
  (List.length (enqueues (trace (reconcileEntry C gconf entry w))) <= 1)%nat.
Proof.
  pose proof (enqueues_metadataStep C gconf entry entry) as Hm.
  entry_cases gconf entry w; cbn [trace snd];
    rewrite ?enqueues_app, ?Hm; cbn [enqueues app List.length]; lia.
Qed.

(** X7: a pass enqueues at most one update per listed entry: its trace is
    the traces of the iterations, one per listed entry in listing order,
    each iteration looks up its own entry and enqueues at most one update;
    so the pass enqueues no more updates than there are entries. *)
Theorem enqueues_at_most_one_per_entry gconf (rlist : list string) : forall w,
  trace (reconcileEntries C gconf rlist w)
  = List.concat (entryTraces C gconf rlist w)
  /\ Forall2
       (fun (entry : string) (t : list Event) =>
          lookups t = [entry] /\ (List.length (enqueues t) <= 1)%nat)
       rlist (entryTraces C gconf rlist w)
  /\ (List.length (enqueues (trace (reconcileEntries C gconf rlist w)))
      <= List.length rlist)%nat.
Proof.
  induction rlist as [|entry rest IH]; intros w.
  - split; [reflexivity|]. split; [constructor | cbn; lia].
  - destruct (IH (world (reconcileEntry C gconf entry w))) as (IH1 & IH2 & IH3).
    pose proof (enqueues_reconcileEntry_le gconf entry w) as Hle.
    rewrite reconcileEntries_cons.
    cbn [trace snd entryTraces List.concat List.length].
    split; [f_equal; exact IH1|]. split.
    + constructor; [|exact IH2].
      split; [apply lookups_reconcileEntry | exact Hle].
    + rewrite enqueues_app, length_app. cbn [trace snd] in Hle. lia.
Qed.

Lemma metadataCalls_metadataStep gconf uri (entry : string) w :
  metadataCalls (trace (metadataStep C gconf uri entry w))
  = if negb (PhabricatorMetadataCommand gconf =? "") then [entry] else [].
Proof.
  rewrite metadataStep_trace.
  destruct (negb (PhabricatorMetadataCommand gconf =? "")); reflexivity.
Qed.

Lemma metadataCalls_reconcileEntry gconf (entry : string) w :
  metadataCalls (trace (reconcileEntry C gconf entry w))
  = if negb (PhabricatorMetadataCommand gconf =? "")
       && completed (value (reconcileEntry C gconf entry w))
    then [entry] else [].
Proof.
  pose proof (metadataCalls_metadataStep gconf entry entry) as Hm.
  entry_cases gconf entry w; cbn [trace value fst snd completed];
    rewrite ?metadataCalls_app, ?Hm; cbn [metadataCalls app];
    rewrite ?andb_false_r, ?andb_true_r; reflexivity.
Qed.

(** X8: the metadata refresh is called exactly for the listed entries whose
    iteration runs to the end of the loop body (with or without an update
    enqueued), in listing order, when the host configuration has a metadata
    command; without one it is never called. *)
Theorem metadata_calls gconf (rlist : list string) : forall w,
  metadataCalls (trace (reconcileEntries C gconf rlist w))
  = if negb (PhabricatorMetadataCommand gconf =? "")
    then completedEntries rlist (value (reconcileEntries C gconf rlist w))
    else [].
Proof.
  induction rlist as [|entry rest IH]; intros w.
  - cbn. destruct (negb (PhabricatorMetadataCommand gconf =? "")); reflexivity.
  - rewrite reconcileEntries_cons. cbn [trace value fst snd].
    rewrite metadataCalls_app, metadataCalls_reconcileEntry, IH.
    unfold completedEntries. cbn [combine filter snd].
    destruct (negb (PhabricatorMetadataCommand gconf =? "")); cbn [andb];
      [|reflexivity].
    destruct (completed (value (reconcileEntry C gconf entry w))); reflexivity.
Qed.

End Facts.

Lemma enqueue_only_enabled_witness :
  In "f" (enqueues (trace (reconcileEntry Sim.collaborators Sim.gitExample "f" Sim.mixed)))
  /\ exists repo w1 cloned w2,
       GetByURI Sim.collaborators "f" Sim.mixed = (Ok repo, w1)
       /\ Enabled repo = true
       /\ IsRepoCloned Sim.collaborators "f" w1 = (Ok cloned, w2)
       /\ shouldEnqueue (DisableAutoGitUpdates (conf_Get Sim.collaborators w2)) cloned
          = true
       /\ "f" = URI repo.
Proof.
  assert (H : In "f" (enqueues (trace (reconcileEntry Sim.collaborators
                                        Sim.gitExample "f" Sim.mixed))))
    by (left; reflexivity).
  split; [exact H|].
  exact (enqueue_only_enabled Sim.collaborators Sim.gitExample "f" Sim.mixed "f" H).
Defined.


End HandlerFacts.

(** ** The other handlers *)

Module OtherFacts.

Section Facts.

Context {W : Type} (C : Collaborators W) (B : Services W).

Ltac runH := unfold bindH, invoke, respond, effect, retH.

(** X9: a failure of the index refresh is never reported.  Once the
    request decodes and the repository resolves, both refresh handlers
    return no error; they answer [204] with the body ["OK"] when the
    refresh succeeded and leave the response untouched when it failed. *)
Theorem refresh_failure_not_reported (a : RefreshIndexRequest) (w w1 : W)
    (repo : Repo) :
  GetByURI C (reqRepoURI a) w = (Ok repo, w1) ->
  valueH (serveDefsRefreshIndex C B (Ok a) w) = None
  /\ responseOps (coreEvents (traceH (serveDefsRefreshIndex C B (Ok a) w)))
     = match fst (DependenciesRefreshIndex B repo (reqCommitID a) w1) with
       | Some _ => []
       | None => [EWriteHeader 204; EWrite "OK"]
       end
  /\ valueH (servePkgsRefreshIndex C B (Ok a) w) = None
  /\ responseOps (coreEvents (traceH (servePkgsRefreshIndex C B (Ok a) w)))
     = match fst (PackagesRefreshIndex B repo (reqCommitID a) w1) with
       | Some _ => []
       | None => [EWriteHeader 204; EWrite "OK"]
       end.
Proof.
  intros Hget.
  unfold serveDefsRefreshIndex, servePkgsRefreshIndex. runH. rewrite Hget.
  destruct (DependenciesRefreshIndex B repo (reqCommitID a) w1) as [[e|] w2];
    destruct (PackagesRefreshIndex B repo (reqCommitID a) w1) as [[e'|] w3];
    repeat split.
Qed.

(** X10: a local extension decides the answer alone.  When the lookup
    returns a local extension, the remote one is not looked at: the local
    manifest is served as JSON, and a local extension without a manifest
    is answered [204] with no body even if the remote one has a manifest. *)
Theorem extension_local_first (a : ExtensionRequest) (w w1 : W)
    (local : LocalExtension) (remote : option RemoteExtension) :
  GetExtensionByExtensionID B (ExtensionID a) w = ((Some local, remote, None), w1) ->
  serveExtension B (Ok a) w
  = (None, w1,
     EGetExtension (ExtensionID a)
       :: match localManifest local with
          | None => [Core (EWriteHeader 204)]
          | Some data =>
              [Core (ESetHeader "Content-Type" "application/json; charset=utf-8");
               Core (EWrite (NormalizeJSON B data))]
          end).
Proof.
  intros Hget. unfold serveExtension. runH. rewrite Hget.
  cbn [chosenManifest]. destruct (localManifest local); reflexivity.
Qed.

(** X11: the answers of [serveExtension].  With an error it writes no body
    and at most the status [404], which it writes exactly for a not-found
    error of the lookup; without an error it answers either [204] with no
    body or a body under the JSON content type, set before the body. *)
Theorem serveExtension_response (args : result ExtensionRequest) (w : W) :
  match valueH (serveExtension B args w) with
  | Some e =>
      responseOps (coreEvents (traceH (serveExtension B args w))) = []
      \/ (IsNotFound B e = true
          /\ responseOps (coreEvents (traceH (serveExtension B args w)))
             = [EWriteHeader 404])
  | None =>
      responseOps (coreEvents (traceH (serveExtension B args w))) = [EWriteHeader 204]
      \/ exists data,
           responseOps (coreEvents (traceH (serveExtension B args w)))
           = [ESetHeader "Content-Type" "application/json; charset=utf-8";
              EWrite (NormalizeJSON B data)]
  end.
Proof.
  destruct args as [a|e]; [|left; reflexivity].
  unfold serveExtension. runH.
  destruct (GetExtensionByExtensionID B (ExtensionID a) w)
    as [[[local remote] [e|]] w1].
  - destruct (IsNotFound B e) eqn:Hnf; cbn [valueH fst].
    + right. split; [exact Hnf | reflexivity].
    + left. reflexivity.
  - destruct (chosenManifest local remote) as [data|]; cbn [valueH fst].
    + right. exists data. reflexivity.
    + left. reflexivity.
Qed.

Lemma archives_app (t1 t2 : list Effect) :
  archives (t1 ++ t2) = (archives t1 ++ archives t2)%list.
Proof.
  induction t1 as [|e t1 IH]; [reflexivity|].
  destruct e; cbn [app archives]; now rewrite IH.
Qed.

(** The copy writes the pieces to the response, and does nothing else. *)
Lemma copyChunks_spec (cs : list string) : forall w : W,
  copyChunks cs w = (tt, w, map (fun c => Core (EWrite c)) cs).
Proof.
  induction cs as [|c r IH]; intros w; [reflexivity|].
  cbn [copyChunks]. runH. rewrite IH. reflexivity.
Qed.

Lemma archives_writes (cs : list string) :
  archives (map (fun c => Core (EWrite c)) cs) = [].
Proof. induction cs as [|c r IH]; [reflexivity | exact IH]. Qed.

Lemma coreEvents_writes (cs : list string) (t : list Effect) :
  coreEvents (map (fun c => Core (EWrite c)) cs ++ t)
  = (map EWrite cs ++ coreEvents t)%list.
Proof.
  induction cs as [|c r IH]; [reflexivity|].
  cbn [map app coreEvents]. f_equal. exact IH.
Qed.

Lemma responseOps_writes (cs : list string) :
  responseOps (map EWrite cs) = map EWrite cs.
Proof.
  induction cs as [|c r IH]; [reflexivity|].
  cbn [map responseOps]. f_equal. exact IH.
Qed.

Lemma body_writes (cs : list string) :
  body (map EWrite cs) = joinChunks cs.
Proof. induction cs as [|c r IH]; [reflexivity|]. cbn. now rewrite IH. Qed.

(** X12: [serveGitTar] requests at most one archive: none when the revision
    does not resolve, and otherwise the tar archive of the commit the
    revision resolved to, not of the revision as it was given. *)
Theorem serveGitTar_archives (name : RepoURI) (spec : string) (w : W) :
  archives (traceH (serveGitTar B name spec w))
  = match fst (ResolveRevision B name spec w) with
    | Ok commit => [(name, commit, "tar")]
    | Err _ => []
    end.
Proof.
  unfold serveGitTar. runH.
  destruct (ResolveRevision B name spec w) as [[commit|e] w1]; [|reflexivity].
  cbn [fst].
  destruct (Archive B name commit "tar" w1) as [[src|e] w2]; [|reflexivity].
  rewrite copyChunks_spec. cbn [traceH snd app archives].
  rewrite archives_app, archives_writes. reflexivity.
Qed.

(** X13: once the archive is open, [serveGitTar] sets the tar content type
    and writes the status [200] before any byte of the archive; the body
    is then the bytes [io.Copy] delivered, in order; an error that ends
    the copy is returned after that, with the part already copied in the
    body, and the reader is closed last in either case. *)
Theorem serveGitTar_copy (name : RepoURI) (spec commit : string) (w w1 w2 : W)
    (src : ArchiveReader) :
  ResolveRevision B name spec w = (Ok commit, w1) ->
  Archive B name commit "tar" w1 = (Ok src, w2) ->
  valueH (serveGitTar B name spec w) = copyError src
  /\ body (coreEvents (traceH (serveGitTar B name spec w)))
     = joinChunks (chunks src)
  /\ contentType (coreEvents (traceH (serveGitTar B name spec w)))
     = Some "application/x-tar"
  /\ (exists writes,
        responseOps (coreEvents (traceH (serveGitTar B name spec w)))
        = (ESetHeader "Content-Type" "application/x-tar" :: EWriteHeader 200
             :: writes)%list
        /\ body writes = joinChunks (chunks src))
  /\ exists t, traceH (serveGitTar B name spec w) = (t ++ [ECloseArchive])%list.
Proof.
  intros Hres Harch. unfold serveGitTar. runH. rewrite Hres, Harch.
  rewrite copyChunks_spec. cbn [valueH traceH fst snd app].
  pose proof (coreEvents_writes (chunks src)) as Hcore.
  pose proof (responseOps_writes (chunks src)) as Hops.
  split; [reflexivity|].
  cbn [coreEvents]. rewrite Hcore. cbn [coreEvents]. rewrite app_nil_r.
  split; [cbn [body]; apply body_writes|].
  split; [reflexivity|]. split.
  - exists (map EWrite (chunks src)). cbn [responseOps]. rewrite Hops.
    split; [reflexivity | apply body_writes].
  - exists ([EResolveRevision name spec; EArchive name commit "tar";
             Core (ESetHeader "Content-Type" "application/x-tar");
             Core (EWriteHeader 200)]
              ++ map (fun c => Core (EWrite c)) (chunks src))%list.
    cbn [app]. reflexivity.
Qed.

(** *** The filter of the unindexed dependencies *)

Lemma filterUnfetched_cons lang dep rest unfetched w :
  filterUnfetched B lang (dep :: rest) unfetched w
  = match ListPackages B (listingFor lang dep) w with
    | (Err e, w1) => (Err e, w1, [EListPackages (listingFor lang dep)])
    | (Ok ps, w1) =>
        let r := filterUnfetched B lang rest
                   (if (Z.of_nat (List.length ps) =? 0)%Z
                    then (unfetched ++ [dep])%list else unfetched) w1 in
        (valueH r, worldH r, EListPackages (listingFor lang dep) :: traceH r)
    end.
Proof.
  cbn [filterUnfetched]. runH. fold (listingFor lang dep).
  destruct (ListPackages B (listingFor lang dep) w) as [[ps|e] w1]; [|reflexivity].
  destruct (filterUnfetched B lang rest _ w1) as [[r w2] t]. reflexivity.
Qed.

Lemma Subsequence_refl {A : Type} (l : list A) : Subsequence l l.
Proof. induction l; constructor; assumption. Qed.

(** X14: the dependencies [filterUnfetched] returns are the ones it was
    given so far followed by a subsequence of the listed dependencies, in
    their order; on that path it has requested one package listing per
    dependency. *)
Theorem filterUnfetched_subsequence lang (deps : list DependencyReference) :
  forall (unfetched : list DependencyReference) (w : W) l,
  valueH (filterUnfetched B lang deps unfetched w) = Ok l ->
  exists kept,
    l = (unfetched ++ kept)%list
    /\ Subsequence kept deps
    /\ List.length (packageListings (traceH (filterUnfetched B lang deps unfetched w)))
       = List.length deps.
Proof.
  induction deps as [|dep rest IH]; intros unfetched w l Hv.
  - cbn in Hv. injection Hv as <-. exists []. rewrite app_nil_r.
    repeat split. constructor.
  - rewrite filterUnfetched_cons in Hv |- *.
    destruct (ListPackages B (listingFor lang dep) w) as [[ps|e] w1];
      [|discriminate Hv].
    cbn [valueH traceH fst snd packageListings List.length] in Hv |- *.
    destruct (IH _ _ _ Hv) as (kept & Hl & Hsub & Hlen).
    destruct (Z.of_nat (List.length ps) =? 0)%Z.
    + exists (dep :: kept). rewrite Hl, <- app_assoc. repeat split.
      * now constructor.
      * now rewrite Hlen.
    + exists kept. repeat split; [exact Hl | now constructor | now rewrite Hlen].
Qed.

(** X15: [filterUnfetched] asks for the packages of the dependencies one by
    one, in their order, each time in the requested language, with the
    query of that dependency and a limit of 1.  When it succeeds it has
    asked for every dependency; when it fails, the listings before the
    failing one all succeeded, the error is the error of that listing, and
    the loop stops there: the failing listing is the last one requested
    and no call follows it. *)
Theorem filterUnfetched_listings lang (deps : list DependencyReference) :
  forall (unfetched : list DependencyReference) (w : W),
  match valueH (filterUnfetched B lang deps unfetched w) with
  | Ok _ =>
      packageListings (traceH (filterUnfetched B lang deps unfetched w))
      = map (listingFor lang) deps
  | Err e =>
      exists done dep rest w1,
        deps = (done ++ dep :: rest)%list
        /\ (exists l, valueH (filterUnfetched B lang done unfetched w) = Ok l)
        /\ ListPackages B (listingFor lang dep)
             (worldH (filterUnfetched B lang done unfetched w)) = (Err e, w1)
        /\ worldH (filterUnfetched B lang deps unfetched w) = w1
        /\ packageListings (traceH (filterUnfetched B lang deps unfetched w))
           = map (listingFor lang) (done ++ [dep])
  end.
Proof.
  induction deps as [|dep0 tl IH]; intros unfetched w; [reflexivity|].
  rewrite filterUnfetched_cons.
  destruct (ListPackages B (listingFor lang dep0) w) as [[ps|e] w1] eqn:Hl.
  - cbn [valueH worldH traceH fst snd packageListings map].
    specialize (IH (if (Z.of_nat (List.length ps) =? 0)%Z
                    then (unfetched ++ [dep0])%list else unfetched) w1).
    destruct (valueH (filterUnfetched B lang tl _ w1)) as [l|e].
    + now rewrite IH.
    + destruct IH as (done & dep & rest & w2 & Hsplit & (l & Hdone) & Hfail & Hworld & Hlist).
      exists (dep0 :: done), dep, rest, w2.
      rewrite filterUnfetched_cons, Hl. cbn [valueH worldH fst snd].
      split; [now rewrite Hsplit|]. split; [exists l; exact Hdone|].
      split; [exact Hfail|]. split; [exact Hworld|].
      cbn [app map]. now rewrite Hlist.
  - cbn [valueH worldH traceH fst snd packageListings].
    exists [], dep0, tl, w1. cbn [filterUnfetched app map]. unfold retH.
    cbn [valueH worldH fst snd].
    split; [reflexivity|]. split; [exists unfetched; reflexivity|].
    split; [exact Hl|]. split; reflexivity.
Qed.

(** X16: for a language other than ["Java"] no dependency has a package
    query: every listing [filterUnfetched] requests is the same,
    query-less one, whatever the dependency. *)
Theorem filterUnfetched_other_language lang (deps : list DependencyReference) :
  lang <> "Java" ->
  forall (unfetched : list DependencyReference) (w : W),
  Forall (fun op => op = mkListPackagesOp lang None 1)
    (packageListings (traceH (filterUnfetched B lang deps unfetched w))).
Proof.
  intros Hlang.
  assert (Hop : forall dep, listingFor lang dep = mkListPackagesOp lang None 1).
  { intros dep. unfold listingFor, depReferenceToPkgQuery.
    destruct (String.eqb_spec lang "Java") as [E|_]; [contradiction | reflexivity]. }
  induction deps as [|dep tl IH]; intros unfetched w; [constructor|].
  rewrite filterUnfetched_cons.
  destruct (ListPackages B (listingFor lang dep) w) as [[ps|e] w1];
    cbn [traceH snd packageListings].
  - constructor; [apply Hop | apply IH].
  - constructor; [apply Hop | constructor].
Qed.

Lemma coreEvents_filterUnfetched lang (deps : list DependencyReference) :
  forall (unfetched : list DependencyReference) (w : W),
  coreEvents (traceH (filterUnfetched B lang deps unfetched w)) = [].
Proof.
  induction deps as [|dep tl IH]; intros unfetched w; [reflexivity|].
  rewrite filterUnfetched_cons.
  destruct (ListPackages B (listingFor lang dep) w) as [[ps|e] w1];
    cbn [traceH snd coreEvents]; [apply IH | reflexivity].
Qed.

Lemma coreEvents_app (t1 t2 : list Effect) :
  coreEvents (t1 ++ t2) = (coreEvents t1 ++ coreEvents t2)%list.
Proof.
  induction t1 as [|e t1 IH]; [reflexivity|].
  destruct e; cbn [app coreEvents]; now rewrite IH.
Qed.

(** X17: [serveReposUnindexedDependencies] answers all or nothing: when it
    returns an error (the request does not decode, a lookup or a listing
    fails, the result cannot be marshalled) nothing has been written to
    the response; otherwise it has written the status [200] and then one
    body. *)
Theorem unindexedDependencies_response
    (args : result RepoUnindexedDependenciesRequest) (w : W) :
  match valueH (serveReposUnindexedDependencies B args w) with
  | Some _ =>
      coreEvents (traceH (serveReposUnindexedDependencies B args w)) = []
  | None =>
      exists data,
        coreEvents (traceH (serveReposUnindexedDependencies B args w))
        = [EWriteHeader 200; EWrite data]
  end.
Proof.
  destruct args as [a|e]; [|reflexivity].
  unfold serveReposUnindexedDependencies. runH.
  destruct (ReposGet B (RepoID a) w) as [[repo|e] w1]; [|reflexivity].
  destruct (ReposResolveRev B repo "" w1) as [[commitID|e] w2]; [|reflexivity].
  destruct (DependenciesList B repo commitID true w2) as [[deps|e] w3]; [|reflexivity].
  pose proof (coreEvents_filterUnfetched (Language a) deps [] w3) as Hq.
  destruct (filterUnfetched B (Language a) deps [] w3) as [[[l|e] w4] t4];
    cbn [traceH snd] in Hq.
  - destruct (marshalDependencies B l) as [data|e]; cbn [valueH traceH fst snd].
    + exists data. cbn [app coreEvents]. rewrite coreEvents_app, Hq. reflexivity.
    + cbn [app coreEvents]. rewrite coreEvents_app, Hq. reflexivity.
  - cbn [valueH traceH fst snd app coreEvents].
    rewrite coreEvents_app, Hq. reflexivity.
Qed.

(** *** The saved queries *)

Lemma appendQueries_spec subject (config : list ConfigSavedQuery) :
  forall queries,
  appendQueries subject config queries = (queries ++ queriesOf subject config)%list.
Proof.
  induction config as [|query rest IH]; intros queries.
  - cbn. now rewrite app_nil_r.
  - cbn [appendQueries]. rewrite IH, <- app_assoc. reflexivity.
Qed.

(** X18: when every settings document parses, the list handed to the
    encoder is what was there followed by the saved queries of the
    documents, document by document and in the order of each document,
    each under the subject of its document and the key of its query. *)
Theorem collectQueries_flat (settings : list Settings) :
  forall queries qs,
  collectQueries B settings queries = Ok qs ->
  qs = (queries ++ flat_map (savedQueriesOf B) settings)%list.
Proof.
  induction settings as [|s rest IH]; intros queries qs Hc.
  - cbn in Hc. injection Hc as <-. cbn. now rewrite app_nil_r.
  - cbn [collectQueries] in Hc. cbn [flat_map]. unfold savedQueriesOf at 1.
    destruct (UnmarshalSavedQueries B (Contents s)) as [config|e];
      [|discriminate Hc].
    rewrite (IH _ _ Hc), appendQueries_spec, <- app_assoc. reflexivity.
Qed.

Lemma collectQueries_fails (settings : list Settings) (s : Settings) (e : error) :
  In s settings ->
  UnmarshalSavedQueries B (Contents s) = Err e ->
  forall queries, exists e', collectQueries B settings queries = Err e'.
Proof.
  intros Hin Hs.
  induction settings as [|s0 rest IH]; [contradiction|].
  intros queries. cbn [collectQueries].
  destruct (UnmarshalSavedQueries B (Contents s0)) as [config|e0] eqn:H0.
  - destruct Hin as [->|Hin]; [congruence|]. apply (IH Hin).
  - exists e0. reflexivity.
Qed.

(** X19: one settings document that does not parse fails the whole
    listing: the handler returns an error, the encoder is not called and
    nothing is written, also for the documents that parsed. *)
Theorem savedQueries_all_or_nothing (w w1 : W) (settings : list Settings)
    (s : Settings) (e : error) :
  SettingsListAll B w = (Ok settings, w1) ->
  In s settings ->
  UnmarshalSavedQueries B (Contents s) = Err e ->
  exists e',
    serveSavedQueriesListAll B w = (Some e', w1, [ESettingsListAll]).
Proof.
  intros Hl Hin Hs.
  destruct (collectQueries_fails settings s e Hin Hs []) as (e' & Hc).
  exists e'. unfold serveSavedQueriesListAll. runH. rewrite Hl, Hc. reflexivity.
Qed.

End Facts.

Lemma refresh_failure_not_reported_witness :
  GetByURI Demo.directory "z" 0%nat = (Ok (mkRepo "z" true), 1%nat)
  /\ fst (DependenciesRefreshIndex Demo.services (mkRepo "z" true) "c0ffee" 1%nat)
     = Some "index failed"
  /\ serveDefsRefreshIndex Demo.directory Demo.services
       (Ok (mkRefreshIndexRequest "z" "c0ffee")) 0%nat
     = (None, 2%nat, [Core (EGetByURI "z"); EDependenciesRefreshIndex "z" "c0ffee"])
  /\ valueH (serveDefsRefreshIndex Demo.directory Demo.services
               (Ok (mkRefreshIndexRequest "z" "c0ffee")) 0%nat) = None.
Proof.
  assert (H : GetByURI Demo.directory (reqRepoURI (mkRefreshIndexRequest "z" "c0ffee"))
                0%nat = (Ok (mkRepo "z" true), 1%nat)) by reflexivity.
  split; [exact H|]. split; [reflexivity|]. split; [reflexivity|].
  exact (proj1 (refresh_failure_not_reported Demo.directory Demo.services
                  (mkRefreshIndexRequest "z" "c0ffee") 0%nat 1%nat
                  (mkRepo "z" true) H)).
Defined.

Lemma extension_local_first_witness :
  GetExtensionByExtensionID Demo.services "both" 0%nat
    = ((Some (mkLocalExtension None),
        Some (mkRemoteExtension (Some "{remote}")), None), 1%nat)
  /\ serveExtension Demo.services (Ok (mkExtensionRequest "both")) 0%nat
     = (None, 1%nat, [EGetExtension "both"; Core (EWriteHeader 204)]).
Proof.
  assert (H : GetExtensionByExtensionID Demo.services
                (ExtensionID (mkExtensionRequest "both")) 0%nat
              = ((Some (mkLocalExtension None),
                  Some (mkRemoteExtension (Some "{remote}")), None), 1%nat))
    by reflexivity.
  split; [exact H|].
  exact (extension_local_first Demo.services (mkExtensionRequest "both")
           0%nat 1%nat (mkLocalExtension None)
           (Some (mkRemoteExtension (Some "{remote}"))) H).
Defined.

Lemma serveGitTar_copy_witness :
  ResolveRevision Demo.services "b" "master" 0%nat
    = (Ok "4b825dc642cb6eb9a060e54bf8d69288fbee4904", 1%nat)
  /\ Archive Demo.services "b" "4b825dc642cb6eb9a060e54bf8d69288fbee4904" "tar" 1%nat
     = (Ok (mkArchiveReader ["tar-"] (Some "unexpected EOF")), 2%nat)
  /\ valueH (serveGitTar Demo.services "b" "master" 0%nat) = Some "unexpected EOF"
  /\ body (coreEvents (traceH (serveGitTar Demo.services "b" "master" 0%nat)))
     = "tar-".
Proof.
  assert (H1 : ResolveRevision Demo.services "b" "master" 0%nat
               = (Ok "4b825dc642cb6eb9a060e54bf8d69288fbee4904", 1%nat))
    by reflexivity.
  assert (H2 : Archive Demo.services "b" "4b825dc642cb6eb9a060e54bf8d69288fbee4904"
                 "tar" 1%nat
               = (Ok (mkArchiveReader ["tar-"] (Some "unexpected EOF")), 2%nat))
    by reflexivity.
  split; [exact H1|]. split; [exact H2|].
  pose proof (serveGitTar_copy Demo.services "b" "master" _ 0%nat 1%nat 2%nat _
                H1 H2) as (Hv & Hb & _).
  split; [exact Hv | exact Hb].
Defined.

Lemma filterUnfetched_subsequence_witness :
  valueH (filterUnfetched Demo.services "Java"
            [mkDependencyReference [("id", "junit")];
             mkDependencyReference [("id", "guava")]] [] 0%nat)
    = Ok [mkDependencyReference [("id", "guava")]]
  /\ exists kept,
       [mkDependencyReference [("id", "guava")]] = ([] ++ kept)%list
       /\ Subsequence kept
            [mkDependencyReference [("id", "junit")];
             mkDependencyReference [("id", "guava")]]
       /\ List.length
            (packageListings
               (traceH (filterUnfetched Demo.services "Java"
                          [mkDependencyReference [("id", "junit")];
                           mkDependencyReference [("id", "guava")]] [] 0%nat)))
          = 2%nat.
Proof.
  assert (H : valueH (filterUnfetched Demo.services "Java"
                        [mkDependencyReference [("id", "junit")];
                         mkDependencyReference [("id", "guava")]] [] 0%nat)
              = Ok [mkDependencyReference [("id", "guava")]]) by reflexivity.
  split; [exact H|].
  exact (filterUnfetched_subsequence Demo.services "Java" _ [] 0%nat _ H).
Defined.

Lemma filterUnfetched_other_language_witness :
  "Go" <> "Java"
  /\ Forall (fun op => op = mkListPackagesOp "Go" None 1)
       (packageListings
          (traceH (filterUnfetched Demo.services "Go"
                     [mkDependencyReference [("id", "junit")];
                      mkDependencyReference [("name", "left-pad")]] [] 0%nat))).
Proof.
  assert (H : "Go" <> "Java") by discriminate.
  split; [exact H|].
  exact (filterUnfetched_other_language Demo.services "Go" _ H [] 0%nat).
Defined.

Lemma collectQueries_flat_witness :
  collectQueries Demo.services
    [mkSettings "org:1" "two"; mkSettings "user:7" "one"] []
  = Ok [mkSavedQuerySpecAndConfig (mkSavedQueryIDSpec "org:1" "k1")
          (mkConfigSavedQuery "k1" "todo");
        mkSavedQuerySpecAndConfig (mkSavedQueryIDSpec "org:1" "k2")
          (mkConfigSavedQuery "k2" "fixme");
        mkSavedQuerySpecAndConfig (mkSavedQueryIDSpec "user:7" "k3")
          (mkConfigSavedQuery "k3" "panic")]
  /\ [mkSavedQuerySpecAndConfig (mkSavedQueryIDSpec "org:1" "k1")
        (mkConfigSavedQuery "k1" "todo");
      mkSavedQuerySpecAndConfig (mkSavedQueryIDSpec "org:1" "k2")
        (mkConfigSavedQuery "k2" "fixme");
      mkSavedQuerySpecAndConfig (mkSavedQueryIDSpec "user:7" "k3")
        (mkConfigSavedQuery "k3" "panic")]
     = ([] ++ flat_map (savedQueriesOf Demo.services)
                [mkSettings "org:1" "two"; mkSettings "user:7" "one"])%list.
Proof.
  assert (H : collectQueries Demo.services
                [mkSettings "org:1" "two"; mkSettings "user:7" "one"] []
              = Ok [mkSavedQuerySpecAndConfig (mkSavedQueryIDSpec "org:1" "k1")
                      (mkConfigSavedQuery "k1" "todo");
                    mkSavedQuerySpecAndConfig (mkSavedQueryIDSpec "org:1" "k2")
                      (mkConfigSavedQuery "k2" "fixme");
                    mkSavedQuerySpecAndConfig (mkSavedQueryIDSpec "user:7" "k3")
                      (mkConfigSavedQuery "k3" "panic")]) by reflexivity.
  split; [exact H|].
  exact (collectQueries_flat Demo.services _ [] _ H).
Defined.

Lemma savedQueries_all_or_nothing_witness :
  SettingsListAll Demo.services 0%nat
    = (Ok [mkSettings "org:1" "two"; mkSettings "user:7" "one";
           mkSettings "user:8" "broken"], 1%nat)
  /\ UnmarshalSavedQueries Demo.services "broken" = Err "invalid JSON"
  /\ exists e',
       serveSavedQueriesListAll Demo.services 0%nat
       = (Some e', 1%nat, [ESettingsListAll]).
Proof.
  assert (H1 : SettingsListAll Demo.services 0%nat
               = (Ok [mkSettings "org:1" "two"; mkSettings "user:7" "one";
                      mkSettings "user:8" "broken"], 1%nat)) by reflexivity.
  assert (H2 : In (mkSettings "user:8" "broken")
                 [mkSettings "org:1" "two"; mkSettings "user:7" "one";
                  mkSettings "user:8" "broken"])
    by (right; right; left; reflexivity).
  assert (H3 : UnmarshalSavedQueries Demo.services
                 (Contents (mkSettings "user:8" "broken")) = Err "invalid JSON")
    by reflexivity.
  split; [exact H1|]. split; [exact H3|].
  exact (savedQueries_all_or_nothing Demo.services 0%nat 1%nat _ _ _ H1 H2 H3).
Defined.

End OtherFacts.
